(** * Story aggregation, merge and live-eligibility services of Coral (talk)

    A shallow embedding of [core/server/services/stories/index.ts] and of the
    count constructors of [core/server/models/comment/counts], together with
    the properties the specification states about them.

    JavaScript numbers holding counts and millisecond timestamps are integers
    ([Z]); the Mongo collections are lists of documents; an [async] service is
    a state-passing computation over the database that either returns a value
    or throws.

    The tenant middleware of the server and the edit-comment mutation of the
    stream client are embedded after the services, each in its own module. *)

From Stdlib Require Import ZArith.
From stdpp Require Import gmap strings list fin_maps pretty.

Local Open Scope Z_scope.

(* ===================================================================== *)
(** * Count structures *)
(* ===================================================================== *)

Module Counts.

(** [CommentModerationCountsPerQueue]. *)
Record CommentModerationCountsPerQueue := {
  unmoderated : Z;
  reported : Z;
  pending : Z;
}.

(** [CommentModerationQueueCounts]. *)
Record CommentModerationQueueCounts := {
  total : Z;
  queues : CommentModerationCountsPerQueue;
}.

(** [CommentStatusCounts]: one field per [GQLCOMMENT_STATUS] key. *)
Record CommentStatusCounts := {
  APPROVED : Z;
  NONE : Z;
  PREMOD : Z;
  REJECTED : Z;
  SYSTEM_WITHHELD : Z;
}.

(** [RelatedCommentCounts]; [action] is a sparse object keyed by action type. *)
Record RelatedCommentCounts := {
  action : gmap string Z;
  status : CommentStatusCounts;
  moderationQueue : CommentModerationQueueCounts;
}.

Definition createEmptyCommentModerationCountsPerQueue
  : CommentModerationCountsPerQueue :=
  {| unmoderated := 0; reported := 0; pending := 0 |}.

Definition createEmptyCommentModerationQueueCounts
  : CommentModerationQueueCounts :=
  {| total := 0; queues := createEmptyCommentModerationCountsPerQueue |}.

Definition createEmptyCommentStatusCounts : CommentStatusCounts :=
  {| APPROVED := 0; NONE := 0; PREMOD := 0; REJECTED := 0;
     SYSTEM_WITHHELD := 0 |}.

Definition createEmptyRelatedCommentCounts : RelatedCommentCounts :=
  {| action := ∅;
     status := createEmptyCommentStatusCounts;
     moderationQueue := createEmptyCommentModerationQueueCounts |}.

(** One accumulation step of each merger: the accumulator plus one input,
    coordinate by coordinate. *)
Definition addStatus (acc c : CommentStatusCounts) : CommentStatusCounts :=
  {| APPROVED := APPROVED acc + APPROVED c;
     NONE := NONE acc + NONE c;
     PREMOD := PREMOD acc + PREMOD c;
     REJECTED := REJECTED acc + REJECTED c;
     SYSTEM_WITHHELD := SYSTEM_WITHHELD acc + SYSTEM_WITHHELD c |}.

Definition addPerQueue (acc c : CommentModerationCountsPerQueue)
  : CommentModerationCountsPerQueue :=
  {| unmoderated := unmoderated acc + unmoderated c;
     reported := reported acc + reported c;
     pending := pending acc + pending c |}.

Definition addModerationQueue (acc c : CommentModerationQueueCounts)
  : CommentModerationQueueCounts :=
  {| total := total acc + total c;
     queues := addPerQueue (queues acc) (queues c) |}.

(** Keys of either object are kept; a key of both carries the sum. *)
Definition addAction (acc c : gmap string Z) : gmap string Z :=
  union_with (λ x y, Some (x + y)) acc c.

(** Modelled from the spec: [mergeCommentStatusCount] of
    [coral-server/models/comment] is not among the sources.  Section 4.1: a
    variadic coordinate-wise sum over all inputs, starting from the zero
    structure. *)
Definition mergeCommentStatusCount (counts : list CommentStatusCounts)
  : CommentStatusCounts :=
  foldl addStatus createEmptyCommentStatusCounts counts.

(** Modelled from the spec: [mergeCommentModerationQueueCount] of
    [coral-server/models/comment] is not among the sources.  Section 4.1: the
    total and every queue are summed over all inputs. *)
Definition mergeCommentModerationQueueCount
  (counts : list CommentModerationQueueCounts) : CommentModerationQueueCounts :=
  foldl addModerationQueue createEmptyCommentModerationQueueCounts counts.

(** Modelled from the spec: [mergeCommentActionCounts] of
    [coral-server/models/action/comment] is not among the sources.
    Section 4.1: a sum over the union of the keys of all inputs, a key missing
    from an input counting as zero there. *)
Definition mergeCommentActionCounts (counts : list (gmap string Z))
  : gmap string Z :=
  foldl addAction ∅ counts.

(** Modelled from the spec: [calculateTotalCommentCount] of
    [coral-server/models/comment] is not among the sources.  Section 4.1: the
    sum across all status keys. *)
Definition calculateTotalCommentCount (c : CommentStatusCounts) : Z :=
  APPROVED c + NONE c + PREMOD c + REJECTED c + SYSTEM_WITHHELD c.

End Counts.

(* ===================================================================== *)
(** * Data model *)
(* ===================================================================== *)

(** [GQLSTORY_MODE]. *)
Inductive GQLSTORY_MODE := COMMENTS | QA | RATINGS_AND_REVIEWS.

Global Instance GQLSTORY_MODE_eq_dec : EqDecision GQLSTORY_MODE.
Proof. solve_decision. Defined.

(** [Partial<LiveConfiguration>]: the [enabled] property may be unset. *)
Record LiveConfiguration := {
  enabled : option bool;
}.

(** The story settings the services read: the optional live override and
    the optional mode. *)
Record StorySettings := {
  live : option LiveConfiguration;
  mode : option GQLSTORY_MODE;
}.

Module Story.
Record t := {
  id : string;
  tenantID : string;
  siteID : string;
  settings : StorySettings;
  commentCounts : Counts.RelatedCommentCounts;
  createdAt : Z;                   (* Date, in milliseconds *)
  lastCommentedAt : option Z;      (* optional Date *)
}.

Definition withCommentCounts (c : Counts.RelatedCommentCounts) (s : t) : t :=
  {| id := id s; tenantID := tenantID s; siteID := siteID s;
     settings := settings s; commentCounts := c;
     createdAt := createdAt s; lastCommentedAt := lastCommentedAt s |}.
End Story.

(** A comment document, as far as the story services are concerned. *)
Module Comment.
Record t := {
  id : string;
  tenantID : string;
  storyID : string;
}.

Definition withStoryID (d : string) (c : t) : t :=
  {| id := id c; tenantID := tenantID c; storyID := d |}.
End Comment.

(** A comment action document. *)
Module Action.
Record t := {
  id : string;
  tenantID : string;
  storyID : string;
}.

Definition withStoryID (d : string) (a : t) : t :=
  {| id := id a; tenantID := tenantID a; storyID := d |}.
End Action.

Module Tenant.
Record t := {
  id : string;
  featureFlags : list string;
  liveEnabled : bool;              (* tenant.live.enabled *)
}.
End Tenant.

(** The two configuration keys [isLiveEnabled] reads with [config.get]. *)
Record Config := {
  disable_live_updates : bool;
  disable_live_updates_timeout : Z;
}.

(* ===================================================================== *)
(** * The database and asynchronous computations over it *)
(* ===================================================================== *)

(** The write operations of the repository, as they reach the store. *)
Inductive Write :=
  | RemoveStoryActions (tenantID storyID : string)
  | RemoveStoryComments (tenantID storyID : string)
  | RemoveStory (tenantID storyID : string)
  | RemoveStories (tenantID : string) (storyIDs : list string)
  | MergeManyCommentStories (tenantID destinationID : string)
      (sourceIDs : list string)
  | MergeManyStoryActions (tenantID destinationID : string)
      (sourceIDs : list string)
  | UpdateStoryCounts (tenantID storyID : string)
      (counts : Counts.RelatedCommentCounts).

(** [Db]: the three collections, and the journal of the writes issued so
    far, oldest first. *)
Record Db := {
  stories : list Story.t;
  comments : list Comment.t;
  actions : list Action.t;
  journal : list Write;
}.

(** How an awaited call settles. *)
Inductive Completion (A : Type) :=
  | Return (a : A)
  | Throw (message : string).
Arguments Return {A} a.
Arguments Throw {A} message.

Definition Async (A : Type) : Type := Db → Completion A * Db.

Global Instance Async_ret : MRet Async := λ A a db, (Return a, db).

Global Instance Async_bind : MBind Async := λ A B k m db,
  match m db with
  | (Return a, db') => k a db'
  | (Throw msg, db') => (Throw msg, db')
  end.

(** [throw new Error(message)]. *)
Definition throw {A} (message : string) : Async A := λ db, (Throw message, db).

(* ===================================================================== *)
(** * Helpers from lodash and coral-common *)
(* ===================================================================== *)

(** [uniq] of lodash: the values in order of first occurrence. *)
Definition uniq {A} `{EqDecision A} (array : list A) : list A :=
  foldl (λ result value,
           if decide (value ∈ result) then result else result ++ [value])
        [] array.

(** [isNonNullArray]: the type guard, returning the narrowed array. *)
Fixpoint isNonNullArray {A} (array : list (option A)) : option (list A) :=
  match array with
  | [] => Some []
  | None :: _ => None
  | Some x :: rest =>
      match isNonNullArray rest with
      | Some xs => Some (x :: xs)
      | None => None
      end
  end.

(** [defaultTo] of lodash on a possibly unset value. *)
Definition defaultTo {A} (value : option A) (defaultValue : A) : A :=
  match value with
  | Some v => v
  | None => defaultValue
  end.

(* ===================================================================== *)
(** * Story repository *)
(* ===================================================================== *)

Definition isStory (tenantID id : string) (s : Story.t) : bool :=
  bool_decide (Story.tenantID s = tenantID) && bool_decide (Story.id s = id).

Definition inStories (tenantID : string) (ids : list string) (s : Story.t)
  : bool :=
  bool_decide (Story.tenantID s = tenantID) && bool_decide (Story.id s ∈ ids).

Definition commentOf (tenantID : string) (storyIDs : list string)
  (c : Comment.t) : bool :=
  bool_decide (Comment.tenantID c = tenantID)
  && bool_decide (Comment.storyID c ∈ storyIDs).

Definition actionOf (tenantID : string) (storyIDs : list string)
  (a : Action.t) : bool :=
  bool_decide (Action.tenantID a = tenantID)
  && bool_decide (Action.storyID a ∈ storyIDs).

(** The first document satisfying [p] is dropped. *)
Fixpoint deleteOne {A} (p : A → bool) (l : list A) : list A :=
  match l with
  | [] => []
  | x :: rest => if p x then rest else x :: deleteOne p rest
  end.

(** The first document satisfying [p] is replaced by its image. *)
Fixpoint updateOne {A} (p : A → bool) (f : A → A) (l : list A) : list A :=
  match l with
  | [] => []
  | x :: rest => if p x then f x :: rest else x :: updateOne p f rest
  end.

(** Every document satisfying [p] is removed. *)
Definition deleteMany {A} (p : A → bool) (l : list A) : list A :=
  List.filter (λ x, negb (p x)) l.

(** Every document satisfying [p] is replaced by its image. *)
Definition updateMany {A} (p : A → bool) (f : A → A) (l : list A) : list A :=
  (λ x, if p x then f x else x) <$> l.

Definition countMatching {A} (p : A → bool) (l : list A) : nat :=
  length (List.filter p l).

Definition record (w : Write) (db : Db) : list Write := journal db ++ [w].

(** The story of a tenant with the given id, when the collection has one. *)
Definition findStory (db : Db) (tenantID id : string) : option Story.t :=
  List.find (isStory tenantID id) (stories db).

(** Modelled from the spec: [retrieveStory] of [coral-server/models/story]
    is not among the sources.  Section 4.2: a lookup scoped by tenant id;
    it reads and writes nothing. *)
Definition retrieveStory (tenantID id : string) : Async (option Story.t) :=
  λ db, (Return (findStory db tenantID id), db).

(** Modelled from the spec: [retrieveManyStories] of
    [coral-server/models/story] is not among the sources.  Section 4.4: the
    referenced stories fetched in one batch, one entry per requested id in
    the order of the ids, null for an id without a story. *)
Definition retrieveManyStories (tenantID : string) (ids : list string)
  : Async (list (option Story.t)) :=
  λ db, (Return (findStory db tenantID <$> ids), db).

(** Modelled from the spec: [removeStoryActions] of
    [coral-server/models/action/comment] is not among the sources.
    Section 4.2: deletes the actions of the story and returns the deleted
    count. *)
Definition removeStoryActions (tenantID storyID : string) : Async nat :=
  λ db,
    (Return (countMatching (actionOf tenantID [storyID]) (actions db)),
     {| stories := stories db;
        comments := comments db;
        actions := deleteMany (actionOf tenantID [storyID]) (actions db);
        journal := record (RemoveStoryActions tenantID storyID) db |}).

(** Modelled from the spec: [removeStoryComments] of
    [coral-server/models/comment] is not among the sources.  Section 4.2:
    deletes the comments of the story and returns the deleted count. *)
Definition removeStoryComments (tenantID storyID : string) : Async nat :=
  λ db,
    (Return (countMatching (commentOf tenantID [storyID]) (comments db)),
     {| stories := stories db;
        comments := deleteMany (commentOf tenantID [storyID]) (comments db);
        actions := actions db;
        journal := record (RemoveStoryComments tenantID storyID) db |}).

(** Modelled from the spec: [removeStory] of [coral-server/models/story] is
    not among the sources.  Section 4.2: deletes the story document and
    returns it, or null when there is none. *)
Definition removeStory (tenantID id : string) : Async (option Story.t) :=
  λ db,
    (Return (findStory db tenantID id),
     {| stories := deleteOne (isStory tenantID id) (stories db);
        comments := comments db;
        actions := actions db;
        journal := record (RemoveStory tenantID id) db |}).

(** Modelled from the spec: [removeStories] of [coral-server/models/story]
    is not among the sources.  Section 4.2: deletes the stories with the
    given ids and returns the deleted count. *)
Definition removeStories (tenantID : string) (ids : list string) : Async nat :=
  λ db,
    (Return (countMatching (inStories tenantID ids) (stories db)),
     {| stories := deleteMany (inStories tenantID ids) (stories db);
        comments := comments db;
        actions := actions db;
        journal := record (RemoveStories tenantID ids) db |}).

(** Modelled from the spec: [mergeManyCommentStories] of
    [coral-server/models/comment] is not among the sources.  Section 4.4,
    execution step 1: every comment whose [storyID] is a source id is
    reassigned to the destination id; returns the modified count. *)
Definition mergeManyCommentStories (tenantID destinationID : string)
  (sourceIDs : list string) : Async nat :=
  λ db,
    (Return (countMatching (commentOf tenantID sourceIDs) (comments db)),
     {| stories := stories db;
        comments := updateMany (commentOf tenantID sourceIDs)
                      (Comment.withStoryID destinationID) (comments db);
        actions := actions db;
        journal :=
          record (MergeManyCommentStories tenantID destinationID sourceIDs)
            db |}).

(** Modelled from the spec: [mergeManyStoryActions] of
    [coral-server/models/action/comment] is not among the sources.
    Section 4.4, execution step 2: the actions referencing a source story
    are reassigned likewise. *)
Definition mergeManyStoryActions (tenantID destinationID : string)
  (sourceIDs : list string) : Async nat :=
  λ db,
    (Return (countMatching (actionOf tenantID sourceIDs) (actions db)),
     {| stories := stories db;
        comments := comments db;
        actions := updateMany (actionOf tenantID sourceIDs)
                     (Action.withStoryID destinationID) (actions db);
        journal :=
          record (MergeManyStoryActions tenantID destinationID sourceIDs)
            db |}).

(** Modelled from the spec: [updateStoryCounts] of
    [coral-server/models/story] is not among the sources.  Section 4.2:
    replaces the embedded counts with the supplied value and returns the
    post-update record, or null if the record is gone. *)
Definition updateStoryCounts (tenantID id : string)
  (commentCounts : Counts.RelatedCommentCounts) : Async (option Story.t) :=
  λ db,
    (Return (Story.withCommentCounts commentCounts
               <$> findStory db tenantID id),
     {| stories := updateOne (isStory tenantID id)
                     (Story.withCommentCounts commentCounts) (stories db);
        comments := comments db;
        actions := actions db;
        journal := record (UpdateStoryCounts tenantID id commentCounts) db |}).

(* ===================================================================== *)
(** * Story services: [services/stories/index.ts] *)
(* ===================================================================== *)

(** [remove(mongo, tenant, storyID, includeComments)]; logging leaves no
    trace in the store and is left out. *)
Definition remove (tenant : Tenant.t) (storyID : string)
  (includeComments : bool) : Async (option Story.t) :=
  story ← retrieveStory (Tenant.id tenant) storyID;
  match story with
  | None => mret None
  | Some story =>
      (if includeComments then
         _ ← removeStoryActions (Tenant.id tenant) (Story.id story);
         _ ← removeStoryComments (Tenant.id tenant) (Story.id story);
         mret ()
       else if bool_decide
                 (0 < Counts.calculateTotalCommentCount
                        (Counts.status (Story.commentCounts story)))
       then throw "asset has comments, cannot remove"
       else mret ());;
      removedStory ← removeStory (Tenant.id tenant) (Story.id story);
      match removedStory with
      | None => mret None
      | Some removedStory => mret (Some removedStory)
      end
  end.

Section Merge.

(** [resolveStoryMode] of [coral-server/models/story] is not among the
    sources, and the specification only says that the resolved mode depends
    on the story's settings and on the tenant: it stays a parameter. *)
Variable resolveStoryMode : StorySettings → Tenant.t → GQLSTORY_MODE.

(** The counts computed from the source stories at lines 392-403. *)
Definition mergedCommentCounts (sourceStories : list Story.t)
  : Counts.RelatedCommentCounts :=
  {| Counts.status :=
       Counts.mergeCommentStatusCount
         ((λ s, Counts.status (Story.commentCounts s)) <$> sourceStories);
     Counts.moderationQueue :=
       Counts.mergeCommentModerationQueueCount
         ((λ s, Counts.moderationQueue (Story.commentCounts s))
            <$> sourceStories);
     Counts.action :=
       Counts.mergeCommentActionCounts
         ((λ s, Counts.action (Story.commentCounts s)) <$> sourceStories) |}.

(** [merge(mongo, tenant, destinationID, sourceIDs)]. *)
Definition merge (tenant : Tenant.t) (destinationID : string)
  (sourceIDs : list string) : Async (option Story.t) :=
  if bool_decide (length sourceIDs = 0%nat) then mret None
  else
    let storyIDs := destinationID :: sourceIDs in
    if bool_decide (length (uniq storyIDs) ≠ length storyIDs)
    then throw "cannot merge from/to the same story ID"
    else
      stories ← retrieveManyStories (Tenant.id tenant) storyIDs;
      match isNonNullArray stories with
      | None => throw "cannot find all the stories"
      | Some stories =>
          if bool_decide (1 < length (uniq (Story.siteID <$> stories)))%nat
          then throw "cannot merge stories on different sites"
          else if existsb
                    (λ s, bool_decide
                            (resolveStoryMode (Story.settings s) tenant
                             ≠ COMMENTS))
                    stories
          then throw "cannot merge stories not in comments mode"
          else
            _ ← mergeManyCommentStories (Tenant.id tenant) destinationID
                  sourceIDs;
            _ ← mergeManyStoryActions (Tenant.id tenant) destinationID
                  sourceIDs;
            let sourceStories := tail stories in
            let commentCounts := mergedCommentCounts sourceStories in
            destinationStory ← updateStoryCounts (Tenant.id tenant)
                                 destinationID commentCounts;
            match destinationStory with
            | None => mret None
            | Some destinationStory =>
                _ ← removeStories (Tenant.id tenant) sourceIDs;
                mret (Some destinationStory)
            end
      end.

End Merge.

(** [LiveEnabledSource = Story | LiveConfiguration]. *)
Inductive LiveEnabledSource :=
  | OfStory (story : Story.t)
  | OfLiveConfiguration (configuration : LiveConfiguration).

(** [sourceIsStory]: an object with a truthy [id] and a truthy [tenantID];
    a string is truthy when it is not empty, and a live configuration has
    neither property. *)
Definition sourceIsStory (source : LiveEnabledSource) : bool :=
  match source with
  | OfStory s =>
      bool_decide (Story.id s ≠ "") && bool_decide (Story.tenantID s ≠ "")
  | OfLiveConfiguration _ => false
  end.

(** [isLiveEnabled(config, tenant, source, now)]; dates are millisecond
    timestamps.  A story object failing the probe of [sourceIsStory] is read
    as a settings object, where it has no [enabled] property. *)
Definition isLiveEnabled (config : Config) (tenant : Tenant.t)
  (source : LiveEnabledSource) (now : Z) : bool :=
  if disable_live_updates config then false
  else
    match source with
    | OfStory s =>
        if sourceIsStory source then
          let timeout := disable_live_updates_timeout config in
          let fromSettings :=
            match live (Story.settings s) with
            | None => Tenant.liveEnabled tenant
            | Some settings =>
                defaultTo (enabled settings) (Tenant.liveEnabled tenant)
            end in
          if bool_decide (0 < timeout) then
            let lastCommentedAt :=
              defaultTo (Story.lastCommentedAt s) (Story.createdAt s) in
            if bool_decide (lastCommentedAt + timeout ≤ now) then false
            else fromSettings
          else fromSettings
        else defaultTo None (Tenant.liveEnabled tenant)
    | OfLiveConfiguration settings =>
        defaultTo (enabled settings) (Tenant.liveEnabled tenant)
    end.

(* ===================================================================== *)
(** * Specification-side notions used to state the properties *)
(* ===================================================================== *)

(** The stories an invocation of [merge] refers to, destination first, as
    the store holds them before the call. *)
Definition referencedStories (db : Db) (tenant : Tenant.t)
  (destinationID : string) (sourceIDs : list string)
  : list (option Story.t) :=
  findStory db (Tenant.id tenant) <$> (destinationID :: sourceIDs).

(** The sum of a list of integers. *)
Definition sumZ (l : list Z) : Z := foldr Z.add 0 l.

(** Coordinate-wise sum of related counts, in the specification's words,
    coordinate by coordinate over the integers: every status field, the
    queue total and every queue of [c] is the sum of that field over the
    inputs; an action key is in [c] exactly when some input has it, and then
    carries the sum of its counts, an input without the key counting zero. *)
Definition isSumOfCounts (c : Counts.RelatedCommentCounts)
  (inputs : list Counts.RelatedCommentCounts) : Prop :=
  Counts.APPROVED (Counts.status c)
  = sumZ ((λ i, Counts.APPROVED (Counts.status i)) <$> inputs)
  ∧ Counts.NONE (Counts.status c)
    = sumZ ((λ i, Counts.NONE (Counts.status i)) <$> inputs)
  ∧ Counts.PREMOD (Counts.status c)
    = sumZ ((λ i, Counts.PREMOD (Counts.status i)) <$> inputs)
  ∧ Counts.REJECTED (Counts.status c)
    = sumZ ((λ i, Counts.REJECTED (Counts.status i)) <$> inputs)
  ∧ Counts.SYSTEM_WITHHELD (Counts.status c)
    = sumZ ((λ i, Counts.SYSTEM_WITHHELD (Counts.status i)) <$> inputs)
  ∧ Counts.total (Counts.moderationQueue c)
    = sumZ ((λ i, Counts.total (Counts.moderationQueue i)) <$> inputs)
  ∧ Counts.unmoderated (Counts.queues (Counts.moderationQueue c))
    = sumZ ((λ i, Counts.unmoderated
                    (Counts.queues (Counts.moderationQueue i))) <$> inputs)
  ∧ Counts.reported (Counts.queues (Counts.moderationQueue c))
    = sumZ ((λ i, Counts.reported
                    (Counts.queues (Counts.moderationQueue i))) <$> inputs)
  ∧ Counts.pending (Counts.queues (Counts.moderationQueue c))
    = sumZ ((λ i, Counts.pending
                    (Counts.queues (Counts.moderationQueue i))) <$> inputs)
  ∧ ∀ key,
      Counts.action c !! key
      = if bool_decide
             (Exists (λ i, is_Some (Counts.action i !! key)) inputs)
        then Some (sumZ ((λ i, default 0 (Counts.action i !! key))
                           <$> inputs))
        else None.

(** The three validation failures on the referenced stories: one of them
    does not exist, two of them lie on different sites, one of them does not
    resolve to comments mode. *)
Definition storyMissing (db : Db) (tenant : Tenant.t)
  (destinationID : string) (sourceIDs : list string) : Prop :=
  None ∈ referencedStories db tenant destinationID sourceIDs.

Definition sitesDiffer (db : Db) (tenant : Tenant.t)
  (destinationID : string) (sourceIDs : list string) : Prop :=
  ∃ s1 s2,
    Some s1 ∈ referencedStories db tenant destinationID sourceIDs
    ∧ Some s2 ∈ referencedStories db tenant destinationID sourceIDs
    ∧ Story.siteID s1 ≠ Story.siteID s2.

Definition notAllCommentsMode
  (resolveStoryMode : StorySettings → Tenant.t → GQLSTORY_MODE)
  (db : Db) (tenant : Tenant.t)
  (destinationID : string) (sourceIDs : list string) : Prop :=
  ∃ s,
    Some s ∈ referencedStories db tenant destinationID sourceIDs
    ∧ resolveStoryMode (Story.settings s) tenant ≠ COMMENTS.

Definition validationFails
  (resolveStoryMode : StorySettings → Tenant.t → GQLSTORY_MODE)
  (db : Db) (tenant : Tenant.t)
  (destinationID : string) (sourceIDs : list string) : Prop :=
  storyMissing db tenant destinationID sourceIDs
  ∨ sitesDiffer db tenant destinationID sourceIDs
  ∨ notAllCommentsMode resolveStoryMode db tenant destinationID sourceIDs.

(** The store a merge leaves behind when it runs to its end. *)
Definition mergedDb (db : Db) (tenantID destinationID : string)
  (sourceIDs : list string) (commentCounts : Counts.RelatedCommentCounts)
  : Db :=
  {| stories :=
       deleteMany (inStories tenantID sourceIDs)
         (updateOne (isStory tenantID destinationID)
            (Story.withCommentCounts commentCounts) (stories db));
     comments :=
       updateMany (commentOf tenantID sourceIDs)
         (Comment.withStoryID destinationID) (comments db);
     actions :=
       updateMany (actionOf tenantID sourceIDs)
         (Action.withStoryID destinationID) (actions db);
     journal :=
       journal db ++
       [MergeManyCommentStories tenantID destinationID sourceIDs;
        MergeManyStoryActions tenantID destinationID sourceIDs;
        UpdateStoryCounts tenantID destinationID commentCounts;
        RemoveStories tenantID sourceIDs] |}.

(** The last activity on a story: [lastCommentedAt], else [createdAt]. *)
Definition lastActivity (s : Story.t) : Z :=
  match Story.lastCommentedAt s with
  | Some t => t
  | None => Story.createdAt s
  end.

(* ===================================================================== *)
(** * The scenario of the specification's section 8 *)
(* ===================================================================== *)

Module Scenario.

Definition tenant : Tenant.t :=
  {| Tenant.id := "tenant"; Tenant.featureFlags := [];
     Tenant.liveEnabled := true |}.

Definition approved (n : Z) : Counts.RelatedCommentCounts :=
  {| Counts.action := ∅;
     Counts.status :=
       {| Counts.APPROVED := n; Counts.NONE := 0; Counts.PREMOD := 0;
          Counts.REJECTED := 0; Counts.SYSTEM_WITHHELD := 0 |};
     Counts.moderationQueue := Counts.createEmptyCommentModerationQueueCounts |}.

Definition story (id site : string) (storyMode : option GQLSTORY_MODE)
  (counts : Counts.RelatedCommentCounts) : Story.t :=
  {| Story.id := id; Story.tenantID := "tenant"; Story.siteID := site;
     Story.settings :=
       {| live := Some {| enabled := Some true |}; mode := storyMode |};
     Story.commentCounts := counts;
     Story.createdAt := 1000; Story.lastCommentedAt := None |}.

(** Destination [D] with two approved comments, sources [S1] with three and
    [S2] with one, all on one site. *)
Definition D : Story.t := story "D" "site" None (approved 2).
Definition S1 : Story.t := story "S1" "site" None (approved 3).
Definition S2 : Story.t := story "S2" "site" None (approved 1).

(** A story in Q&A mode, and one on another site. *)
Definition Q : Story.t := story "Q" "site" (Some QA) (approved 0).
Definition X : Story.t := story "X" "elsewhere" None (approved 0).

Definition comment (id storyID : string) : Comment.t :=
  {| Comment.id := id; Comment.tenantID := "tenant";
     Comment.storyID := storyID |}.

Definition reaction (id storyID : string) : Action.t :=
  {| Action.id := id; Action.tenantID := "tenant";
     Action.storyID := storyID |}.

Definition db : Db :=
  {| stories := [D; S1; S2; Q; X];
     comments := [comment "c1" "D"; comment "c2" "S1"; comment "c3" "S2"];
     actions := [reaction "a1" "S1"; reaction "a2" "D"];
     journal := [] |}.

(** A mode resolution: the story's own mode, comments when it has none. *)
Definition resolveStoryMode (settings : StorySettings) (_ : Tenant.t)
  : GQLSTORY_MODE :=
  defaultTo (mode settings) COMMENTS.

Definition config (flag : bool) (timeout : Z) : Config :=
  {| disable_live_updates := flag; disable_live_updates_timeout := timeout |}.

End Scenario.

(* ===================================================================== *)
(** * Further notions for the properties of [merge] and [remove] *)
(* ===================================================================== *)

(** What lets a merge run to its end: some source, no id twice, every
    referenced story in the store, all on the destination's site and all
    resolving to comments mode. *)
Definition mergeable
  (resolveStoryMode : StorySettings → Tenant.t → GQLSTORY_MODE)
  (db : Db) (tenant : Tenant.t)
  (destinationID : string) (sourceIDs : list string)
  (destination : Story.t) (sources : list Story.t) : Prop :=
  sourceIDs ≠ []
  ∧ NoDup (destinationID :: sourceIDs)
  ∧ findStory db (Tenant.id tenant) destinationID = Some destination
  ∧ findStory db (Tenant.id tenant) <$> sourceIDs = Some <$> sources
  ∧ (∀ s, s ∈ destination :: sources →
          Story.siteID s = Story.siteID destination)
  ∧ (∀ s, s ∈ destination :: sources →
          resolveStoryMode (Story.settings s) tenant = COMMENTS).

(** The documents of a collection that belong to other tenants. *)
Definition foreignStories (tenantID : string) (db : Db) : list Story.t :=
  List.filter (λ s, negb (bool_decide (Story.tenantID s = tenantID)))
    (stories db).

Definition foreignComments (tenantID : string) (db : Db) : list Comment.t :=
  List.filter (λ c, negb (bool_decide (Comment.tenantID c = tenantID)))
    (comments db).

Definition foreignActions (tenantID : string) (db : Db) : list Action.t :=
  List.filter (λ a, negb (bool_decide (Action.tenantID a = tenantID)))
    (actions db).

(* ===================================================================== *)
(** * Further notions for the properties of [isLiveEnabled] *)
(* ===================================================================== *)

(** A source is dormant when it is a story by the probe of [sourceIsStory],
    a positive timeout is configured, and the timeout has run out since the
    story's last activity. *)
Definition dormant (config : Config) (source : LiveEnabledSource) (now : Z)
  : Prop :=
  match source with
  | OfStory s =>
      sourceIsStory source = true
      ∧ 0 < disable_live_updates_timeout config
      ∧ lastActivity s + disable_live_updates_timeout config ≤ now
  | OfLiveConfiguration _ => False
  end.

Global Instance dormant_dec config source now :
  Decision (dormant config source now).
Proof. destruct source; unfold dormant; apply _. Defined.

(** The setting the source itself carries: the [enabled] of a live
    configuration, or of the live settings of a story that passes the probe.
    A story that fails the probe is read as a configuration and has no
    [enabled] property. *)
Definition ownSetting (source : LiveEnabledSource) : option bool :=
  match source with
  | OfStory s =>
      if sourceIsStory source then
        match live (Story.settings s) with
        | Some settings => enabled settings
        | None => None
        end
      else None
  | OfLiveConfiguration settings => enabled settings
  end.

(* ===================================================================== *)
(** * Further notions for the properties of the counts *)
(* ===================================================================== *)

(** No field below zero. *)
Definition statusNonNegative (c : Counts.CommentStatusCounts) : Prop :=
  0 ≤ Counts.APPROVED c ∧ 0 ≤ Counts.NONE c ∧ 0 ≤ Counts.PREMOD c
  ∧ 0 ≤ Counts.REJECTED c ∧ 0 ≤ Counts.SYSTEM_WITHHELD c.

Definition moderationQueueNonNegative (c : Counts.CommentModerationQueueCounts)
  : Prop :=
  0 ≤ Counts.total c
  ∧ 0 ≤ Counts.unmoderated (Counts.queues c)
  ∧ 0 ≤ Counts.reported (Counts.queues c)
  ∧ 0 ≤ Counts.pending (Counts.queues c).

Definition actionNonNegative (c : gmap string Z) : Prop :=
  ∀ key n, c !! key = Some n → 0 ≤ n.

(* ===================================================================== *)
(** * A store with two tenants, for the examples *)
(* ===================================================================== *)

Module Cases.

(** A story of another tenant under the id of a source of the scenario. *)
Definition foreignStory : Story.t :=
  {| Story.id := "S1"; Story.tenantID := "other"; Story.siteID := "site";
     Story.settings := {| live := None; mode := None |};
     Story.commentCounts := Scenario.approved 7;
     Story.createdAt := 1000; Story.lastCommentedAt := None |}.

(** A story without comments. *)
Definition E : Story.t := Scenario.story "E" "site" None (Scenario.approved 0).

Definition foreignComment : Comment.t :=
  {| Comment.id := "f1"; Comment.tenantID := "other";
     Comment.storyID := "S1" |}.

Definition foreignAction : Action.t :=
  {| Action.id := "g1"; Action.tenantID := "other";
     Action.storyID := "S1" |}.

Definition db : Db :=
  {| stories := [foreignStory; Scenario.D; Scenario.S1; Scenario.S2; E];
     comments :=
       [foreignComment; Scenario.comment "c1" "D"; Scenario.comment "c2" "S1";
        Scenario.comment "c3" "S2"];
     actions :=
       [foreignAction; Scenario.reaction "a1" "S1";
        Scenario.reaction "a2" "D"];
     journal := [] |}.

(** The store after [S1] and [S2] were merged into [D]. *)
Definition merged : Db :=
  mergedDb db "tenant" "D" ["S1"; "S2"]
    (mergedCommentCounts [Scenario.S1; Scenario.S2]).

(** The store after [S1] was removed with its comments. *)
Definition removed : Db :=
  {| stories := [foreignStory; Scenario.D; Scenario.S2; E];
     comments :=
       [foreignComment; Scenario.comment "c1" "D"; Scenario.comment "c3" "S2"];
     actions := [foreignAction; Scenario.reaction "a2" "D"];
     journal :=
       [RemoveStoryActions "tenant" "S1"; RemoveStoryComments "tenant" "S1";
        RemoveStory "tenant" "S1"] |}.

(** A story that switches live updates off for itself, last commented on at
    instant 2000. *)
Definition muted : Story.t :=
  {| Story.id := "M"; Story.tenantID := "tenant"; Story.siteID := "site";
     Story.settings :=
       {| live := Some {| enabled := Some false |}; mode := None |};
     Story.commentCounts := Scenario.approved 0;
     Story.createdAt := 1000; Story.lastCommentedAt := Some 2000 |}.

(** A story object without an id. *)
Definition anonymous : Story.t :=
  {| Story.id := ""; Story.tenantID := "tenant"; Story.siteID := "site";
     Story.settings :=
       {| live := Some {| enabled := Some false |}; mode := None |};
     Story.commentCounts := Scenario.approved 0;
     Story.createdAt := 1000; Story.lastCommentedAt := None |}.

End Cases.

(* ===================================================================== *)
(** * A store whose stories carry counts of every kind *)
(* ===================================================================== *)

Module Busy.

Definition story (id : string) (counts : Counts.RelatedCommentCounts)
  : Story.t :=
  Scenario.story id "site" None counts.

(** The destination, with counts of its own. *)
Definition B0 : Story.t :=
  story "B0"
    {| Counts.action := {["REACTION" := 9; "FLAG" := 4]};
       Counts.status :=
         {| Counts.APPROVED := 2; Counts.NONE := 6; Counts.PREMOD := 1;
            Counts.REJECTED := 5; Counts.SYSTEM_WITHHELD := 3 |};
       Counts.moderationQueue :=
         {| Counts.total := 7;
            Counts.queues :=
              {| Counts.unmoderated := 6; Counts.reported := 2;
                 Counts.pending := 1 |} |} |}.

Definition B1 : Story.t :=
  story "B1"
    {| Counts.action := {["REACTION" := 2]};
       Counts.status :=
         {| Counts.APPROVED := 3; Counts.NONE := 2; Counts.PREMOD := 0;
            Counts.REJECTED := 1; Counts.SYSTEM_WITHHELD := 0 |};
       Counts.moderationQueue :=
         {| Counts.total := 3;
            Counts.queues :=
              {| Counts.unmoderated := 2; Counts.reported := 1;
                 Counts.pending := 0 |} |} |}.

Definition B2 : Story.t :=
  story "B2"
    {| Counts.action := {["REACTION" := 3; "DONT_AGREE" := 1]};
       Counts.status :=
         {| Counts.APPROVED := 1; Counts.NONE := 0; Counts.PREMOD := 4;
            Counts.REJECTED := 0; Counts.SYSTEM_WITHHELD := 2 |};
       Counts.moderationQueue :=
         {| Counts.total := 5;
            Counts.queues :=
              {| Counts.unmoderated := 0; Counts.reported := 1;
                 Counts.pending := 4 |} |} |}.

(** The sums over [B1] and [B2], written out. *)
Definition merged : Counts.RelatedCommentCounts :=
  {| Counts.action := {["REACTION" := 5; "DONT_AGREE" := 1]};
     Counts.status :=
       {| Counts.APPROVED := 4; Counts.NONE := 2; Counts.PREMOD := 4;
          Counts.REJECTED := 1; Counts.SYSTEM_WITHHELD := 2 |};
     Counts.moderationQueue :=
       {| Counts.total := 8;
          Counts.queues :=
            {| Counts.unmoderated := 2; Counts.reported := 2;
               Counts.pending := 4 |} |} |}.

Definition db : Db :=
  {| stories := [B0; B1; B2];
     comments :=
       [Scenario.comment "c0" "B0"; Scenario.comment "c1" "B1";
        Scenario.comment "c2" "B2"];
     actions := [Scenario.reaction "a1" "B1"; Scenario.reaction "a2" "B2"];
     journal := [] |}.

End Busy.

(* ===================================================================== *)
(** * The tenant middleware *)
(* ===================================================================== *)

Module Middleware.

(** A tenant cache: [retrieveByDomain] resolves to a tenant or to null, or
    rejects. *)
Record TenantCache := {
  retrieveByDomain : string → Completion (option Tenant.t);
}.

(** [req.talk]: the trace id, the request's instant, the cache slot
    ([req.talk.cache.tenant]) and the tenant, the last two optional. *)
Record Talk := {
  id : string;
  now : Z;
  cache : option TenantCache;
  tenant : option Tenant.t;
}.

(** What the middleware reads and writes of the request and the response:
    [req.hostname], [req.talk], the response headers and
    [res.locals.tenant]. *)
Record Exchange := {
  hostname : string;
  talk : option Talk;
  headers : gmap string string;
  locals : option Tenant.t;
}.

(** The argument [next] is called with. *)
Inductive NextArg :=
  | NoError
  | TenantNotFoundError (hostname : string)
  | Caught (message : string).

(** [tenantMiddleware({ cache, passNoTenant })(req, res, next)].  The values
    [uuid()] and [new Date()] would give are inputs; the result is the
    request and response as the middleware leaves them and the one call of
    [next]. *)
Definition tenantMiddleware (tenantCache : TenantCache) (passNoTenant : bool)
  (uuid : string) (date : Z) (x : Exchange) : Exchange * NextArg :=
  (* if (!req.talk) { ... } *)
  let stamped :=
    match talk x with
    | None =>
        ({| id := uuid; now := date; cache := None; tenant := None |},
         <["X-Trace-ID" := uuid]> (headers x))
    | Some t => (t, headers x)
    end in
  (* if (!req.talk.cache) { ... } *)
  let withCache :=
    match cache stamped.1 with
    | None =>
        {| id := id stamped.1; now := now stamped.1;
           cache := Some tenantCache; tenant := tenant stamped.1 |}
    | Some _ => stamped.1
    end in
  match retrieveByDomain tenantCache (hostname x) with
  | Throw err =>
      ({| hostname := hostname x; talk := Some withCache;
          headers := stamped.2; locals := locals x |},
       Caught err)
  | Return None =>
      ({| hostname := hostname x; talk := Some withCache;
          headers := stamped.2; locals := locals x |},
       if passNoTenant then NoError else TenantNotFoundError (hostname x))
  | Return (Some found) =>
      ({| hostname := hostname x;
          talk := Some {| id := id withCache; now := now withCache;
                          cache := cache withCache; tenant := Some found |};
          headers := stamped.2; locals := Some found |},
       NoError)
  end.

(** A cache that knows one domain. *)
Definition exampleCache : TenantCache :=
  {| retrieveByDomain := λ domain,
       if bool_decide (domain = "news.example") then
         Return (Some Scenario.tenant)
       else if bool_decide (domain = "down.example") then
         Throw "cache unavailable"
       else Return None |}.

Definition request (host : string) : Exchange :=
  {| hostname := host; talk := None; headers := ∅; locals := None |}.

End Middleware.

(* ===================================================================== *)
(** * The edit-comment mutation of the stream client *)
(* ===================================================================== *)

Module EditComment.

(** [EditCommentInput]: the fields [commit] reads and [pick] keeps. *)
Record EditCommentInput := {
  commentID : string;
  body : string;
}.

(** [variables.input]. *)
Record Variables := {
  variables_commentID : string;
  variables_body : string;
  variables_clientMutationId : string;
}.

(** [optimisticResponse.editComment]. *)
Record OptimisticResponse := {
  response_id : string;
  response_body : string;
  response_edited : bool;
  response_clientMutationId : string;
}.

(** The Relay store as far as the updater goes: records by id, each a map
    from field name to value. *)
Abbreviation Store := (gmap string (gmap string string)).

(** The configuration handed to [commitMutationPromiseNormalized]; the
    updater fails ([None]) where the JavaScript throws. *)
Record MutationConfig := {
  mutation : string;
  variables : Variables;
  optimisticResponse : OptimisticResponse;
  updater : Store → option Store;
}.

(** [Number.prototype.toString] on a non-negative integer. *)
Definition toString (n : N) : string := pretty n.

(** [clientMutationId++] leaves [clientMutationId + 1] in the variable.  The
    counter is a JavaScript number: integers up to [2^53] are exact, and
    [2^53 + 1] rounds back to [2^53]. *)
Definition increment (clientMutationId : N) : N :=
  if bool_decide (clientMutationId < 2 ^ 53)%N then (clientMutationId + 1)%N
  else clientMutationId.

(** [store.get(commentID)!.setValue("EDIT", "lastViewerAction")]. *)
Definition markEdited (commentID : string) (store : Store) : option Store :=
  match store !! commentID with
  | None => None
  | Some record =>
      Some (<[commentID := <["lastViewerAction" := "EDIT"]> record]> store)
  end.

(** [commit(environment, input)], given the value of the module's
    [clientMutationId] counter: the configuration passed on, and the counter
    afterwards.  [commitMutationPromiseNormalized] is not among the sources;
    the call is represented by its argument. *)
Definition commit (clientMutationId : N) (input : EditCommentInput)
  : MutationConfig * N :=
  ({| mutation := "EditCommentMutation";
      variables :=
        {| variables_commentID := commentID input;
           variables_body := body input;
           variables_clientMutationId := toString clientMutationId |};
      optimisticResponse :=
        {| response_id := commentID input;
           response_body := body input;
           response_edited := true;
           (* (clientMutationId++).toString(): the value before the
              increment *)
           response_clientMutationId := toString clientMutationId |};
      updater := markEdited (commentID input) |},
   increment clientMutationId).

(** One [commit] after the other. *)
Fixpoint commitAll (clientMutationId : N) (inputs : list EditCommentInput)
  : list MutationConfig * N :=
  match inputs with
  | [] => ([], clientMutationId)
  | input :: rest =>
      let (config, counter) := commit clientMutationId input in
      let (configs, final) := commitAll counter rest in
      (config :: configs, final)
  end.

End EditComment.

(* ===================================================================== *)
(** * Facts about the count mergers *)
(* ===================================================================== *)

Lemma addStatus_comm a b : Counts.addStatus a b = Counts.addStatus b a.
Proof. unfold Counts.addStatus. f_equal; lia. Qed.

Lemma addStatus_assoc a b c :
  Counts.addStatus a (Counts.addStatus b c)
  = Counts.addStatus (Counts.addStatus a b) c.
Proof. unfold Counts.addStatus; simpl. f_equal; lia. Qed.

Lemma addStatus_empty_l a :
  Counts.addStatus Counts.createEmptyCommentStatusCounts a = a.
Proof. destruct a; reflexivity. Qed.

Lemma addPerQueue_comm a b : Counts.addPerQueue a b = Counts.addPerQueue b a.
Proof. unfold Counts.addPerQueue. f_equal; lia. Qed.

Lemma addPerQueue_assoc a b c :
  Counts.addPerQueue a (Counts.addPerQueue b c)
  = Counts.addPerQueue (Counts.addPerQueue a b) c.
Proof. unfold Counts.addPerQueue; simpl. f_equal; lia. Qed.

Lemma addModerationQueue_comm a b :
  Counts.addModerationQueue a b = Counts.addModerationQueue b a.
Proof.
  unfold Counts.addModerationQueue. f_equal; [lia | apply addPerQueue_comm].
Qed.

Lemma addModerationQueue_assoc a b c :
  Counts.addModerationQueue a (Counts.addModerationQueue b c)
  = Counts.addModerationQueue (Counts.addModerationQueue a b) c.
Proof.
  unfold Counts.addModerationQueue; simpl.
  f_equal; [lia | apply addPerQueue_assoc].
Qed.

Lemma addModerationQueue_empty_l a :
  Counts.addModerationQueue Counts.createEmptyCommentModerationQueueCounts a
  = a.
Proof. destruct a as [t [u r p]]; reflexivity. Qed.

Lemma lookup_addAction (a b : gmap string Z) k :
  Counts.addAction a b !! k
  = match a !! k, b !! k with
    | Some x, Some y => Some (x + y)
    | Some x, None => Some x
    | None, o => o
    end.
Proof.
  unfold Counts.addAction. rewrite lookup_union_with.
  destruct (a !! k), (b !! k); reflexivity.
Qed.

Lemma addAction_comm a b : Counts.addAction a b = Counts.addAction b a.
Proof.
  apply map_eq; intros k. rewrite !lookup_addAction.
  destruct (a !! k), (b !! k); f_equal; lia.
Qed.

Lemma addAction_assoc a b c :
  Counts.addAction a (Counts.addAction b c)
  = Counts.addAction (Counts.addAction a b) c.
Proof.
  apply map_eq; intros k. rewrite !lookup_addAction.
  destruct (a !! k), (b !! k), (c !! k); f_equal; lia.
Qed.

Lemma addAction_empty_l a : Counts.addAction ∅ a = a.
Proof.
  apply map_eq; intros k. rewrite lookup_addAction, lookup_empty.
  reflexivity.
Qed.

(** ** Folding a commutative, associative step from its unit *)

Section Variadic.
Context {A : Type} (add : A → A → A) (zero : A).
Hypothesis add_comm : ∀ a b, add a b = add b a.
Hypothesis add_assoc : ∀ a b c, add a (add b c) = add (add a b) c.
Hypothesis add_zero_l : ∀ a, add zero a = a.

Lemma foldl_add_acc (l : list A) (acc : A) :
  foldl add acc l = add acc (foldl add zero l).
Proof using add_comm add_assoc add_zero_l.
  revert acc. induction l as [|x l IH]; intros acc; simpl.
  - rewrite add_comm. symmetry. apply add_zero_l.
  - rewrite (IH (add acc x)), (IH (add zero x)), add_zero_l.
    symmetry. apply add_assoc.
Qed.

Lemma variadic_cons x l :
  foldl add zero (x :: l) = add x (foldl add zero l).
Proof using add_comm add_assoc add_zero_l.
  simpl. rewrite add_zero_l. apply foldl_add_acc.
Qed.

Lemma variadic_two x y : foldl add zero [x; y] = add x y.
Proof using add_zero_l. simpl. by rewrite add_zero_l. Qed.

Lemma variadic_app l k :
  foldl add zero (l ++ k) = add (foldl add zero l) (foldl add zero k).
Proof using add_comm add_assoc add_zero_l.
  rewrite foldl_app. apply foldl_add_acc.
Qed.

(** Order independence: any rearrangement of the inputs merges alike. *)
Lemma variadic_Permutation l k :
  l ≡ₚ k → foldl add zero l = foldl add zero k.
Proof using add_comm add_assoc add_zero_l.
  induction 1 as [|x l k _ IH|x y l|l k m _ IH1 _ IH2].
  - reflexivity.
  - rewrite !variadic_cons. by rewrite IH.
  - rewrite !variadic_cons, !add_assoc. f_equal. apply add_comm.
  - by rewrite IH1.
Qed.

(** The shape of the specification's testable property. *)
Lemma variadic_assoc_comm a b c :
  foldl add zero [a; foldl add zero [b; c]]
  = foldl add zero [foldl add zero [a; b]; c]
  ∧ foldl add zero [foldl add zero [a; b]; c] = foldl add zero [a; b; c]
  ∧ foldl add zero [a; b] = foldl add zero [b; a].
Proof using add_comm add_assoc add_zero_l.
  repeat split.
  - rewrite !variadic_two. apply add_assoc.
  - rewrite (variadic_cons a [b; c]), !variadic_two.
    symmetry. apply add_assoc.
  - rewrite !variadic_two. apply add_comm.
Qed.
End Variadic.

(** The order of the inputs does not matter to any of the three mergers. *)
Lemma mergeCommentStatusCount_Permutation l k :
  l ≡ₚ k → Counts.mergeCommentStatusCount l = Counts.mergeCommentStatusCount k.
Proof.
  apply variadic_Permutation;
    auto using addStatus_comm, addStatus_assoc, addStatus_empty_l.
Qed.

Lemma mergeCommentModerationQueueCount_Permutation l k :
  l ≡ₚ k →
  Counts.mergeCommentModerationQueueCount l
  = Counts.mergeCommentModerationQueueCount k.
Proof.
  apply variadic_Permutation;
    auto using addModerationQueue_comm, addModerationQueue_assoc,
      addModerationQueue_empty_l.
Qed.

Lemma mergeCommentActionCounts_Permutation l k :
  l ≡ₚ k →
  Counts.mergeCommentActionCounts l = Counts.mergeCommentActionCounts k.
Proof.
  apply variadic_Permutation;
    auto using addAction_comm, addAction_assoc, addAction_empty_l.
Qed.

(** A key missing from one input counts as zero there. *)
Example mergeCommentActionCounts_sparse :
  Counts.mergeCommentActionCounts
    [{["REACTION" := 2]}; {["REACTION" := 3; "FLAG" := 1]}]
  = {["REACTION" := 5; "FLAG" := 1]}.
Proof. by vm_compute. Qed.

(** C9.  For count structures [a], [b], [c] of one kind (status counts,
    moderation-queue counts, action counts) the variadic merge is associative
    and commutative: merging [a] with the merge of [b] and [c], merging the
    merge of [a] and [b] with [c], and merging [a], [b], [c] at once all
    agree, and merging [a], [b] agrees with merging [b], [a]. *)
Theorem merge_counts_assoc_comm :
  (∀ a b c : Counts.CommentStatusCounts,
     Counts.mergeCommentStatusCount [a; Counts.mergeCommentStatusCount [b; c]]
     = Counts.mergeCommentStatusCount
         [Counts.mergeCommentStatusCount [a; b]; c]
     ∧ Counts.mergeCommentStatusCount
         [Counts.mergeCommentStatusCount [a; b]; c]
       = Counts.mergeCommentStatusCount [a; b; c]
     ∧ Counts.mergeCommentStatusCount [a; b]
       = Counts.mergeCommentStatusCount [b; a])
  ∧ (∀ a b c : Counts.CommentModerationQueueCounts,
     Counts.mergeCommentModerationQueueCount
       [a; Counts.mergeCommentModerationQueueCount [b; c]]
     = Counts.mergeCommentModerationQueueCount
         [Counts.mergeCommentModerationQueueCount [a; b]; c]
     ∧ Counts.mergeCommentModerationQueueCount
         [Counts.mergeCommentModerationQueueCount [a; b]; c]
       = Counts.mergeCommentModerationQueueCount [a; b; c]
     ∧ Counts.mergeCommentModerationQueueCount [a; b]
       = Counts.mergeCommentModerationQueueCount [b; a])
  ∧ (∀ a b c : gmap string Z,
     Counts.mergeCommentActionCounts
       [a; Counts.mergeCommentActionCounts [b; c]]
     = Counts.mergeCommentActionCounts
         [Counts.mergeCommentActionCounts [a; b]; c]
     ∧ Counts.mergeCommentActionCounts
         [Counts.mergeCommentActionCounts [a; b]; c]
       = Counts.mergeCommentActionCounts [a; b; c]
     ∧ Counts.mergeCommentActionCounts [a; b]
       = Counts.mergeCommentActionCounts [b; a]).
Proof.
  split; [|split]; intros a b c.
  - apply (variadic_assoc_comm Counts.addStatus);
      auto using addStatus_comm, addStatus_assoc, addStatus_empty_l.
  - apply (variadic_assoc_comm Counts.addModerationQueue);
      auto using addModerationQueue_comm, addModerationQueue_assoc,
        addModerationQueue_empty_l.
  - apply (variadic_assoc_comm Counts.addAction);
      auto using addAction_comm, addAction_assoc, addAction_empty_l.
Qed.

(* ===================================================================== *)
(** * Facts about [uniq] and [isNonNullArray] *)
(* ===================================================================== *)

Section Uniq.
Context {A : Type} `{EqDecision A}.

Lemma uniq_from (result array : list A) :
  NoDup result →
  let out :=
    foldl (λ result value,
             if decide (value ∈ result) then result else result ++ [value])
          result array in
  NoDup out ∧ ∀ x, x ∈ out ↔ x ∈ result ∨ x ∈ array.
Proof.
  revert result. induction array as [|v array IH]; intros result Hnd; simpl.
  - split; [done|]. intros x. rewrite elem_of_nil. tauto.
  - destruct (decide (v ∈ result)) as [Hin|Hnin].
    + destruct (IH result Hnd) as [Hnd' Hel]. split; [done|].
      intros x. rewrite Hel, elem_of_cons.
      split; [tauto|]. intros [?|[->|?]]; auto.
    + assert (NoDup (result ++ [v])) as Hnd2.
      { apply NoDup_app. repeat split; [done| |apply NoDup_singleton].
        intros x Hx ->%list_elem_of_singleton. done. }
      destruct (IH _ Hnd2) as [Hnd' Hel]. split; [done|].
      intros x. rewrite Hel, elem_of_app, list_elem_of_singleton, elem_of_cons.
      tauto.
Qed.

Lemma NoDup_uniq (l : list A) : NoDup (uniq l).
Proof. apply (uniq_from [] l). constructor. Qed.

Lemma elem_of_uniq (l : list A) x : x ∈ uniq l ↔ x ∈ l.
Proof.
  destruct (uniq_from [] l (NoDup_nil_2)) as [_ Hel].
  unfold uniq. rewrite Hel, elem_of_nil. tauto.
Qed.

(** The duplicate test of [merge]: the lengths agree exactly when no value
    occurs twice. *)
Lemma length_uniq_NoDup (l : list A) :
  length (uniq l) = length l ↔ NoDup l.
Proof.
  split.
  - intros Hlen.
    assert (uniq l ⊆+ l) as Hsub.
    { apply NoDup_submseteq; [apply NoDup_uniq|].
      intros x. by rewrite elem_of_uniq. }
    apply submseteq_length_Permutation in Hsub; [|lia].
    rewrite <- Hsub. apply NoDup_uniq.
  - intros Hnd. apply Permutation_length, NoDup_Permutation;
      [apply NoDup_uniq|done|apply elem_of_uniq].
Qed.

(** Two different values leave more than one value. *)
Lemma length_uniq_two (l : list A) x y :
  x ∈ l → y ∈ l → x ≠ y → (1 < length (uniq l))%nat.
Proof.
  rewrite <- !(elem_of_uniq l). intros Hx Hy Hne.
  destruct (uniq l) as [|a [|b u]]; simpl; [| |lia].
  - by apply elem_of_nil in Hx.
  - apply list_elem_of_singleton in Hx, Hy. congruence.
Qed.
End Uniq.

Lemma isNonNullArray_Some {A} (array : list (option A)) xs :
  isNonNullArray array = Some xs ↔ array = Some <$> xs.
Proof.
  revert xs. induction array as [|[x|] array IH]; intros xs; simpl.
  - split; [intros [= <-]; done|]. by destruct xs.
  - destruct (isNonNullArray array) as [ys|] eqn:E.
    + split.
      * intros [= <-]. simpl. f_equal. by apply IH.
      * destruct xs as [|x' xs]; [done|]. intros [= <- H].
        apply IH in H. congruence.
    + split; [done|]. destruct xs as [|x' xs]; [done|]. intros [= <- H].
      apply IH in H. done.
  - split; [done|]. by destruct xs.
Qed.

Lemma isNonNullArray_None {A} (array : list (option A)) :
  isNonNullArray array = None ↔ None ∈ array.
Proof.
  induction array as [|[x|] array IH]; simpl.
  - split; [done|]. by intros ?%elem_of_nil.
  - rewrite elem_of_cons.
    destruct (isNonNullArray array); split; try done.
    + intros [?|H]; [done|]. by apply IH in H.
    + intros _. right. by apply IH.
  - split; [|done]. intros _. left.
Qed.

(* ===================================================================== *)
(** * Facts about the repository *)
(* ===================================================================== *)

Lemma findStory_Some db tenantID id s :
  findStory db tenantID id = Some s →
  Story.id s = id ∧ Story.tenantID s = tenantID.
Proof.
  unfold findStory. intros H. apply find_some in H as [_ H].
  unfold isStory in H. apply andb_prop in H as [H1 H2].
  apply bool_decide_eq_true in H1, H2. done.
Qed.

(** Running a bind: the continuation sees the value and the store the first
    computation left. *)
Lemma run_bind {A B} (m : Async A) (k : A → Async B) db :
  (m ≫= k) db
  = match m db with
    | (Return a, db') => k a db'
    | (Throw msg, db') => (Throw msg, db')
    end.
Proof. reflexivity. Qed.

(* ===================================================================== *)
(** * Properties of [remove] *)
(* ===================================================================== *)

(** C10.  For a [storyID] that references no story of the tenant, [remove]
    returns null: it throws nothing and leaves every collection, and the
    journal of writes, as they were. *)
Theorem remove_missing_story_returns_null tenant storyID includeComments db :
  findStory db (Tenant.id tenant) storyID = None →
  remove tenant storyID includeComments db = (Return None, db).
Proof.
  intros Hnone. unfold remove. rewrite run_bind.
  unfold retrieveStory. rewrite Hnone. reflexivity.
Qed.

Lemma remove_missing_story_returns_null_witness :
  findStory Scenario.db (Tenant.id Scenario.tenant) "nowhere" = None
  ∧ remove Scenario.tenant "nowhere" true Scenario.db
    = (Return None, Scenario.db).
Proof.
  split; [reflexivity|].
  apply (remove_missing_story_returns_null Scenario.tenant "nowhere" true).
  reflexivity.
Defined.

(** C5.  For an existing story whose status counts sum to more than zero,
    [remove] with [includeComments = false] throws the has-comments error
    and leaves the story, its comments and everything else unchanged. *)
Theorem remove_refused_with_linked_comments tenant storyID db story :
  findStory db (Tenant.id tenant) storyID = Some story →
  0 < Counts.calculateTotalCommentCount
        (Counts.status (Story.commentCounts story)) →
  remove tenant storyID false db
  = (Throw "asset has comments, cannot remove", db).
Proof.
  intros Hfind Hpos. unfold remove. rewrite run_bind.
  unfold retrieveStory. rewrite Hfind. rewrite run_bind.
  rewrite bool_decide_eq_true_2 by done. reflexivity.
Qed.

Lemma remove_refused_with_linked_comments_witness :
  findStory Scenario.db (Tenant.id Scenario.tenant) "S1" = Some Scenario.S1
  ∧ 0 < Counts.calculateTotalCommentCount
          (Counts.status (Story.commentCounts Scenario.S1))
  ∧ remove Scenario.tenant "S1" false Scenario.db
    = (Throw "asset has comments, cannot remove", Scenario.db).
Proof.
  split; [reflexivity|]. split; [reflexivity|].
  apply (remove_refused_with_linked_comments _ _ _ Scenario.S1);
    reflexivity.
Defined.

(** C8.  For an existing story, [remove] with [includeComments = true]
    issues its deletes in the order: the story's actions, then the story's
    comments, then the story record; it returns the removed story. *)
Theorem remove_cascade_order tenant storyID db story :
  findStory db (Tenant.id tenant) storyID = Some story →
  remove tenant storyID true db
  = (Return (Some story),
     {| stories := deleteOne (isStory (Tenant.id tenant) storyID) (stories db);
        comments :=
          deleteMany (commentOf (Tenant.id tenant) [storyID]) (comments db);
        actions :=
          deleteMany (actionOf (Tenant.id tenant) [storyID]) (actions db);
        journal :=
          journal db ++
          [RemoveStoryActions (Tenant.id tenant) storyID;
           RemoveStoryComments (Tenant.id tenant) storyID;
           RemoveStory (Tenant.id tenant) storyID] |}).
Proof.
  intros Hfind. destruct (findStory_Some _ _ _ _ Hfind) as [Hid _].
  unfold remove. rewrite run_bind. unfold retrieveStory. rewrite Hfind.
  rewrite Hid. unfold findStory in Hfind.
  cbv [mbind Async_bind mret Async_ret removeStoryActions removeStoryComments
       removeStory findStory record].
  cbn [stories comments actions journal]. rewrite Hfind.
  rewrite <- !app_assoc. reflexivity.
Qed.

Lemma remove_cascade_order_witness :
  findStory Scenario.db (Tenant.id Scenario.tenant) "S1" = Some Scenario.S1
  ∧ journal (remove Scenario.tenant "S1" true Scenario.db).2
    = [RemoveStoryActions "tenant" "S1"; RemoveStoryComments "tenant" "S1";
       RemoveStory "tenant" "S1"].
Proof.
  split; [reflexivity|].
  rewrite (remove_cascade_order Scenario.tenant "S1" Scenario.db Scenario.S1)
    by reflexivity.
  reflexivity.
Defined.

(* ===================================================================== *)
(** * Properties of [isLiveEnabled] *)
(* ===================================================================== *)

Lemma lastActivity_defaultTo s :
  defaultTo (Story.lastCommentedAt s) (Story.createdAt s) = lastActivity s.
Proof. reflexivity. Qed.

(** C7.  Whatever the source (a story or a bare live configuration), the
    tenant and the instant, [isLiveEnabled] is false when the
    [disable_live_updates] flag of the configuration is set. *)
Theorem isLiveEnabled_globally_disabled config tenant source now :
  disable_live_updates config = true →
  isLiveEnabled config tenant source now = false.
Proof. intros Hflag. unfold isLiveEnabled. by rewrite Hflag. Qed.

Lemma isLiveEnabled_globally_disabled_witness :
  disable_live_updates (Scenario.config true 0) = true
  ∧ isLiveEnabled (Scenario.config true 0) Scenario.tenant
      (OfStory Scenario.D) 0 = false
  ∧ isLiveEnabled (Scenario.config true 0) Scenario.tenant
      (OfLiveConfiguration {| enabled := Some true |}) 0 = false.
Proof.
  split; [reflexivity|].
  split; apply isLiveEnabled_globally_disabled; reflexivity.
Defined.

(** C6.  With a positive [disable_live_updates_timeout], [isLiveEnabled] is
    false for a story whose last activity ([lastCommentedAt], else
    [createdAt]) plus the timeout is not after [now], whatever the story's
    own [live.enabled] and the tenant's setting. *)
Theorem isLiveEnabled_false_after_timeout config tenant story now :
  sourceIsStory (OfStory story) = true →
  0 < disable_live_updates_timeout config →
  lastActivity story + disable_live_updates_timeout config ≤ now →
  isLiveEnabled config tenant (OfStory story) now = false.
Proof.
  intros Hstory Hpos Hdormant. unfold isLiveEnabled.
  destruct (disable_live_updates config); [done|].
  rewrite Hstory. cbv zeta. rewrite lastActivity_defaultTo.
  by rewrite !bool_decide_eq_true_2.
Qed.

Lemma isLiveEnabled_false_after_timeout_witness :
  sourceIsStory (OfStory Scenario.D) = true
  ∧ 0 < disable_live_updates_timeout (Scenario.config false 500)
  ∧ lastActivity Scenario.D
    + disable_live_updates_timeout (Scenario.config false 500) ≤ 1500
  ∧ (live (Story.settings Scenario.D) ≫= enabled) = Some true
  ∧ isLiveEnabled (Scenario.config false 500) Scenario.tenant
      (OfStory Scenario.D) 1500 = false.
Proof.
  split; [reflexivity|]. split; [reflexivity|].
  split; [by vm_compute|]. split; [reflexivity|].
  apply isLiveEnabled_false_after_timeout; [reflexivity|reflexivity|].
  by vm_compute.
Defined.

(** Before the timeout has run out the story's own setting decides. *)
Example isLiveEnabled_before_timeout :
  isLiveEnabled (Scenario.config false 500) Scenario.tenant
    (OfStory Scenario.D) 1499 = true.
Proof. reflexivity. Qed.

(* ===================================================================== *)
(** * Properties of [merge] *)
(* ===================================================================== *)

(** A field that adds up under the step of a fold adds up over the fold. *)
Lemma foldl_additive {A} (add : A → A → A) (field : A → Z) :
  (∀ a b, field (add a b) = field a + field b) →
  ∀ (l : list A) acc,
    field (foldl add acc l) = field acc + sumZ (field <$> l).
Proof.
  intros Hadd. induction l as [|x l IH]; intros acc.
  - simpl. lia.
  - rewrite fmap_cons. cbn [foldl sumZ foldr]. rewrite IH, Hadd.
    unfold sumZ. lia.
Qed.

(** One key of a fold of action counts: the accumulator's count, if it has
    the key, plus the inputs' counts; without it, the key is there exactly
    when an input has it. *)
Lemma lookup_foldl_addAction (key : string) (l : list (gmap string Z)) :
  ∀ acc : gmap string Z,
    foldl Counts.addAction acc l !! key
    = match acc !! key with
      | Some x => Some (x + sumZ ((λ m, default 0 (m !! key)) <$> l))
      | None =>
          if bool_decide (Exists (λ m, is_Some (m !! key)) l)
          then Some (sumZ ((λ m, default 0 (m !! key)) <$> l))
          else None
      end.
Proof.
  induction l as [|m l IH]; intros acc.
  - simpl. destruct (acc !! key) as [x|]; [f_equal; lia|done].
  - rewrite fmap_cons. cbn [foldl sumZ foldr]. rewrite IH, lookup_addAction.
    fold (sumZ ((λ m, default 0 (m !! key)) <$> l)).
    destruct (acc !! key) as [x|], (m !! key) as [y|] eqn:Hm; simpl.
    + f_equal; lia.
    + f_equal; lia.
    + rewrite bool_decide_eq_true_2; [done|].
      apply Exists_cons_hd. by rewrite Hm.
    + assert (Exists (λ m, is_Some (m !! key)) (m :: l)
              ↔ Exists (λ m, is_Some (m !! key)) l) as Hiff.
      { rewrite Exists_cons, Hm. split; [|tauto].
        intros [[? [=]]|?]; done. }
      rewrite (bool_decide_ext _ _ Hiff).
      by destruct (bool_decide _).
Qed.

(** The counts [merge] computes from the source stories are, coordinate by
    coordinate, the sums over those stories. *)
Lemma mergedCommentCounts_isSum (sourceStories : list Story.t) :
  isSumOfCounts (mergedCommentCounts sourceStories)
    (Story.commentCounts <$> sourceStories).
Proof.
  unfold isSumOfCounts, mergedCommentCounts.
  cbn [Counts.status Counts.moderationQueue Counts.action].
  unfold Counts.mergeCommentStatusCount,
    Counts.mergeCommentModerationQueueCount, Counts.mergeCommentActionCounts.
  rewrite <- !list_fmap_compose.
  repeat split.
  - rewrite (foldl_additive Counts.addStatus Counts.APPROVED) by done.
    by rewrite <- list_fmap_compose.
  - rewrite (foldl_additive Counts.addStatus Counts.NONE) by done.
    by rewrite <- list_fmap_compose.
  - rewrite (foldl_additive Counts.addStatus Counts.PREMOD) by done.
    by rewrite <- list_fmap_compose.
  - rewrite (foldl_additive Counts.addStatus Counts.REJECTED) by done.
    by rewrite <- list_fmap_compose.
  - rewrite (foldl_additive Counts.addStatus Counts.SYSTEM_WITHHELD) by done.
    by rewrite <- list_fmap_compose.
  - rewrite (foldl_additive Counts.addModerationQueue Counts.total) by done.
    by rewrite <- list_fmap_compose.
  - rewrite (foldl_additive Counts.addModerationQueue
               (λ c, Counts.unmoderated (Counts.queues c))) by done.
    by rewrite <- list_fmap_compose.
  - rewrite (foldl_additive Counts.addModerationQueue
               (λ c, Counts.reported (Counts.queues c))) by done.
    by rewrite <- list_fmap_compose.
  - rewrite (foldl_additive Counts.addModerationQueue
               (λ c, Counts.pending (Counts.queues c))) by done.
    by rewrite <- list_fmap_compose.
  - intros key. rewrite lookup_foldl_addAction, lookup_empty.
    rewrite <- !list_fmap_compose.
    assert (Exists (λ m : gmap string Z, is_Some (m !! key))
              ((λ s, Counts.action (Story.commentCounts s))
                 <$> sourceStories)
            ↔ Exists (λ i, is_Some (Counts.action i !! key))
                (Story.commentCounts <$> sourceStories)) as Hiff.
    { rewrite !Exists_fmap. reflexivity. }
    by rewrite (bool_decide_ext _ _ Hiff).
Qed.

Lemma find_updateOne {A} (p : A → bool) (f : A → A) (l : list A) :
  (∀ x, p x = true → p (f x) = true) →
  List.find p (updateOne p f l) = f <$> List.find p l.
Proof.
  intros Hp. induction l as [|x l IH]; simpl; [done|].
  destruct (p x) eqn:E; simpl.
  - by rewrite (Hp x E).
  - by rewrite E.
Qed.

Lemma find_deleteMany {A} (p q : A → bool) (l : list A) :
  (∀ x, p x = true → q x = false) →
  List.find p (deleteMany q l) = List.find p l.
Proof.
  intros Hpq. unfold deleteMany. induction l as [|x l IH]; simpl; [done|].
  destruct (p x) eqn:E.
  - rewrite (Hpq x E). simpl. by rewrite E.
  - destruct (q x); simpl; [done|]. by rewrite E.
Qed.

Section MergeFacts.
Variable resolveStoryMode : StorySettings → Tenant.t → GQLSTORY_MODE.

(** What a returned story tells about the run: every check passed and every
    step of the execution took place. *)
Lemma merge_returned_story tenant destinationID sourceIDs db d db' :
  merge resolveStoryMode tenant destinationID sourceIDs db
  = (Return (Some d), db') →
  ∃ destination sources,
    NoDup (destinationID :: sourceIDs)
    ∧ findStory db (Tenant.id tenant) destinationID = Some destination
    ∧ findStory db (Tenant.id tenant) <$> sourceIDs = Some <$> sources
    ∧ d = Story.withCommentCounts (mergedCommentCounts sources) destination
    ∧ db' = mergedDb db (Tenant.id tenant) destinationID sourceIDs
              (mergedCommentCounts sources).
Proof.
  unfold merge. intros H.
  case_bool_decide as Hlen; [discriminate H|].
  cbv zeta in H. case_bool_decide as Hdup; [discriminate H|].
  rewrite run_bind in H. unfold retrieveManyStories in H.
  destruct (isNonNullArray _) as [found|] eqn:Hfound; [|discriminate H].
  case_bool_decide as Hsites; [discriminate H|].
  destruct (existsb _ found); [discriminate H|].
  apply isNonNullArray_Some in Hfound.
  destruct found as [|destination sources]; [discriminate Hfound|].
  injection Hfound as Hdest Hsources.
  exists destination, sources.
  assert (NoDup (destinationID :: sourceIDs)) as Hnd.
  { apply length_uniq_NoDup. lia. }
  split; [done|]. split; [done|]. split; [done|].
  revert H.
  cbv [mbind Async_bind mret Async_ret mergeManyCommentStories
       mergeManyStoryActions updateStoryCounts removeStories record].
  cbn [stories comments actions journal tail].
  unfold findStory in Hdest |- *. cbn [stories]. rewrite Hdest.
  cbn [fmap option_fmap option_map].
  intros [= <- <-]. split; [done|].
  unfold mergedDb. rewrite <- !app_assoc. reflexivity.
Qed.

(** C1.  After a successful merge the destination's comment counts (status,
    moderation queue and action) are the coordinate-wise sum of the counts
    the source stories had; the counts the destination had before do not
    enter the sum, they are replaced by it. *)
Theorem merge_counts_are_sum_of_sources
  tenant destinationID sourceIDs db d db' :
  merge resolveStoryMode tenant destinationID sourceIDs db
  = (Return (Some d), db') →
  ∃ sources,
    findStory db (Tenant.id tenant) <$> sourceIDs = Some <$> sources
    ∧ isSumOfCounts (Story.commentCounts d) (Story.commentCounts <$> sources)
    ∧ findStory db' (Tenant.id tenant) destinationID = Some d.
Proof.
  intros Hrun.
  apply merge_returned_story in Hrun
    as (destination & sources & Hnd & Hdest & Hsources & -> & ->).
  exists sources. split; [done|]. split.
  - simpl. apply mergedCommentCounts_isSum.
  - apply NoDup_cons in Hnd as [Hnotin _].
    unfold findStory, mergedDb in *. cbn [stories].
    rewrite find_deleteMany, find_updateOne, Hdest; [done|done|].
    intros x Hx. unfold isStory in Hx. apply andb_prop in Hx as [_ Hx].
    apply bool_decide_eq_true in Hx. unfold inStories.
    rewrite Hx, (bool_decide_eq_false_2 _ Hnotin). apply andb_false_r.
Qed.

(** C2, as the code has it.  With an empty list of source ids [merge]
    returns null (it throws nothing) and leaves every record and the journal
    of writes as they were. *)
Theorem merge_empty_sources_returns_null tenant destinationID db :
  merge resolveStoryMode tenant destinationID [] db = (Return None, db).
Proof.
  unfold merge. rewrite bool_decide_eq_true_2 by reflexivity.
  reflexivity.
Qed.

(** C4.  When the destination id is among the source ids, or any id occurs
    twice among destination and sources, [merge] throws the duplicate-id
    error and leaves every record and the journal of writes as they were. *)
Theorem merge_duplicate_ids tenant destinationID sourceIDs db :
  destinationID ∈ sourceIDs ∨ ¬ NoDup (destinationID :: sourceIDs) →
  merge resolveStoryMode tenant destinationID sourceIDs db
  = (Throw "cannot merge from/to the same story ID", db).
Proof.
  intros Hdup.
  assert (¬ NoDup (destinationID :: sourceIDs)) as Hnd.
  { destruct Hdup as [Hin|Hnd]; [|done].
    intros [Hnotin _]%NoDup_cons. done. }
  unfold merge. case_bool_decide as Hlen.
  - destruct sourceIDs; [|done]. exfalso. apply Hnd, NoDup_singleton.
  - cbv zeta. rewrite bool_decide_eq_true_2; [done|].
    by rewrite length_uniq_NoDup.
Qed.

(** C3, as the code has it.  With a source list that is not empty, when a
    referenced story is missing, or the referenced stories do not share one
    site, or one of them does not resolve to comments mode, [merge] throws
    before any comment or action is reassigned and before any story is
    updated or deleted: the store and the journal of writes are unchanged. *)
Theorem merge_validation_fails_before_mutation
  tenant destinationID sourceIDs db :
  sourceIDs ≠ [] →
  validationFails resolveStoryMode db tenant destinationID sourceIDs →
  ∃ message,
    merge resolveStoryMode tenant destinationID sourceIDs db
    = (Throw message, db).
Proof.
  intros Hne Hfails. unfold merge.
  rewrite bool_decide_eq_false_2 by (by destruct sourceIDs).
  cbv zeta. case_bool_decide as Hdup; [by eexists|].
  rewrite run_bind. unfold retrieveManyStories.
  fold (referencedStories db tenant destinationID sourceIDs).
  destruct (isNonNullArray _) as [found|] eqn:Hfound; [|by eexists].
  apply isNonNullArray_Some in Hfound.
  case_bool_decide as Hsites; [by eexists|].
  destruct (existsb _ found) eqn:Hmode; [by eexists|].
  exfalso. destruct Hfails as [Hmiss|[Hsite|Hnot]].
  - unfold storyMissing in Hmiss. rewrite Hfound in Hmiss.
    apply list_elem_of_fmap in Hmiss as (? & ? & _). done.
  - destruct Hsite as (s1 & s2 & H1 & H2 & Hdiff).
    rewrite Hfound in H1, H2.
    apply list_elem_of_fmap in H1 as (s1' & [= <-] & H1).
    apply list_elem_of_fmap in H2 as (s2' & [= <-] & H2).
    apply Hsites.
    apply (length_uniq_two _ (Story.siteID s1) (Story.siteID s2));
      [by apply list_elem_of_fmap_2..|done].
  - destruct Hnot as (s & Hs & Hnot). rewrite Hfound in Hs.
    apply list_elem_of_fmap in Hs as (s' & [= <-] & Hs).
    apply not_true_iff_false in Hmode. apply Hmode.
    apply existsb_exists. exists s. split; [by apply list_elem_of_In|].
    by apply bool_decide_eq_true.
Qed.

End MergeFacts.

Lemma merge_counts_are_sum_of_sources_witness :
  merge Scenario.resolveStoryMode Scenario.tenant "B0" ["B1"; "B2"] Busy.db
  = (Return (Some (Story.withCommentCounts Busy.merged Busy.B0)),
     mergedDb Busy.db "tenant" "B0" ["B1"; "B2"] Busy.merged)
  ∧ ∃ sources,
      findStory Busy.db (Tenant.id Scenario.tenant) <$> ["B1"; "B2"]
      = Some <$> sources
      ∧ isSumOfCounts
          (Story.commentCounts (Story.withCommentCounts Busy.merged Busy.B0))
          (Story.commentCounts <$> sources)
      ∧ findStory (mergedDb Busy.db "tenant" "B0" ["B1"; "B2"] Busy.merged)
          (Tenant.id Scenario.tenant) "B0"
        = Some (Story.withCommentCounts Busy.merged Busy.B0).
Proof.
  split; [by vm_compute|].
  apply (merge_counts_are_sum_of_sources Scenario.resolveStoryMode
           Scenario.tenant "B0" ["B1"; "B2"] Busy.db
           (Story.withCommentCounts Busy.merged Busy.B0)).
  by vm_compute.
Defined.

(** The merged counts of the witness, key by key: the destination's own
    [FLAG] count and its own figures are gone, the sources' add up. *)
Example merge_busy_counts :
  let d :=
    (merge Scenario.resolveStoryMode Scenario.tenant "B0" ["B1"; "B2"]
       Busy.db).1 in
  d = Return (Some (Story.withCommentCounts Busy.merged Busy.B0))
  ∧ Counts.action Busy.merged !! "REACTION" = Some 5
  ∧ Counts.action Busy.merged !! "DONT_AGREE" = Some 1
  ∧ Counts.action Busy.merged !! "FLAG" = None
  ∧ Counts.total (Counts.moderationQueue Busy.merged) = 8.
Proof. by vm_compute. Qed.

(** At an empty source list nothing is thrown. *)
Lemma merge_empty_sources_throws_nothing :
  ¬ ∃ message db',
      merge Scenario.resolveStoryMode Scenario.tenant "D" [] Scenario.db
      = (Throw message, db').
Proof. intros (message & db' & H). vm_compute in H. discriminate H. Qed.

Lemma merge_duplicate_ids_witness :
  ("D" ∈ ["S1"; "D"] ∨ ¬ NoDup ["D"; "S1"; "D"])
  ∧ merge Scenario.resolveStoryMode Scenario.tenant "D" ["S1"; "D"]
      Scenario.db
    = (Throw "cannot merge from/to the same story ID", Scenario.db).
Proof.
  assert ("D" ∈ ["S1"; "D"]) as Hin by (right; left).
  split; [by left|].
  apply merge_duplicate_ids. by left.
Defined.

(** The Q&A story as destination of a merge without sources: a referenced
    story is not in comments mode, and yet nothing is thrown. *)
Lemma merge_invalid_without_sources_throws_nothing :
  validationFails Scenario.resolveStoryMode Scenario.db Scenario.tenant "Q" []
  ∧ ¬ ∃ message db',
        merge Scenario.resolveStoryMode Scenario.tenant "Q" [] Scenario.db
        = (Throw message, db').
Proof.
  split.
  - right; right. exists Scenario.Q. split; [left|done].
  - intros (message & db' & H). vm_compute in H. discriminate H.
Qed.

Lemma merge_validation_fails_before_mutation_witness :
  ["X"] ≠ []
  ∧ validationFails Scenario.resolveStoryMode Scenario.db Scenario.tenant
      "D" ["X"]
  ∧ ∃ message,
      merge Scenario.resolveStoryMode Scenario.tenant "D" ["X"] Scenario.db
      = (Throw message, Scenario.db).
Proof.
  assert (sitesDiffer Scenario.db Scenario.tenant "D" ["X"]) as Hsites.
  { exists Scenario.D, Scenario.X.
    split; [left|]. split; [right; left|done]. }
  split; [done|]. split; [by right; left|].
  apply merge_validation_fails_before_mutation; [done|by right; left].
Defined.

(** The cross-site merge of the witness, spelled out. *)
Example merge_cross_site :
  merge Scenario.resolveStoryMode Scenario.tenant "D" ["X"] Scenario.db
  = (Throw "cannot merge stories on different sites", Scenario.db).
Proof. by vm_compute. Qed.

(** A merge into the Q&A story is refused, and so is one from a story that
    does not exist. *)
Example merge_not_comments_mode :
  merge Scenario.resolveStoryMode Scenario.tenant "Q" ["S1"] Scenario.db
  = (Throw "cannot merge stories not in comments mode", Scenario.db).
Proof. by vm_compute. Qed.

Example merge_missing_story :
  merge Scenario.resolveStoryMode Scenario.tenant "D" ["nowhere"] Scenario.db
  = (Throw "cannot find all the stories", Scenario.db).
Proof. by vm_compute. Qed.

(** The scenario of section 8: after the merge the sources are gone and
    their comments and actions point to the destination. *)
Example merge_scenario_store :
  let db' :=
    (merge Scenario.resolveStoryMode Scenario.tenant "D" ["S1"; "S2"]
       Scenario.db).2 in
  Story.id <$> stories db' = ["D"; "Q"; "X"]
  ∧ Comment.storyID <$> comments db' = ["D"; "D"; "D"]
  ∧ Action.storyID <$> actions db' = ["D"; "D"].
Proof. by vm_compute. Qed.

(* ===================================================================== *)
(** * Further properties of [merge] *)
(* ===================================================================== *)


(** ** The collection operations *)

Lemma find_deleteMany_None {A} (p q : A → bool) (l : list A) :
  (∀ x, p x = true → q x = true) →
  List.find p (deleteMany q l) = None.
Proof.
  intros Hpq. unfold deleteMany. induction l as [|x l IH]; simpl; [done|].
  destruct (q x) eqn:Eq; simpl; [done|].
  destruct (p x) eqn:Ep; [|done]. by rewrite (Hpq x Ep) in Eq.
Qed.

Lemma find_deleteOne_other {A} (p q : A → bool) (l : list A) :
  (∀ x, q x = true → p x = false) →
  List.find p (deleteOne q l) = List.find p l.
Proof.
  intros Hqp. induction l as [|x l IH]; simpl; [done|].
  destruct (q x) eqn:Eq; simpl.
  - by rewrite (Hqp x Eq).
  - by rewrite IH.
Qed.

Lemma find_updateOne_other {A} (p q : A → bool) (f : A → A) (l : list A) :
  (∀ x, q x = true → p x = false ∧ p (f x) = false) →
  List.find p (updateOne q f l) = List.find p l.
Proof.
  intros Hqp. induction l as [|x l IH]; simpl; [done|].
  destruct (q x) eqn:Eq; simpl.
  - destruct (Hqp x Eq) as [-> ->]. done.
  - by rewrite IH.
Qed.

Lemma length_updateMany {A} (p : A → bool) (f : A → A) (l : list A) :
  length (updateMany p f l) = length l.
Proof. unfold updateMany. apply length_fmap. Qed.

Lemma elem_of_updateMany {A} (p : A → bool) (f : A → A) (l : list A) y :
  y ∈ updateMany p f l ↔ ∃ x, x ∈ l ∧ y = if p x then f x else x.
Proof.
  unfold updateMany. rewrite list_elem_of_fmap.
  split; intros (x & ? & ?); by exists x.
Qed.

Lemma filter_deleteMany {A} (p q : A → bool) (l : list A) :
  (∀ x, q x = true → p x = false) →
  List.filter p (deleteMany q l) = List.filter p l.
Proof.
  intros Hqp. unfold deleteMany. induction l as [|x l IH]; simpl; [done|].
  destruct (q x) eqn:Eq; simpl.
  - by rewrite (Hqp x Eq).
  - by rewrite IH.
Qed.

Lemma filter_deleteOne {A} (p q : A → bool) (l : list A) :
  (∀ x, q x = true → p x = false) →
  List.filter p (deleteOne q l) = List.filter p l.
Proof.
  intros Hqp. induction l as [|x l IH]; simpl; [done|].
  destruct (q x) eqn:Eq; simpl.
  - by rewrite (Hqp x Eq).
  - by rewrite IH.
Qed.

Lemma filter_updateOne {A} (p q : A → bool) (f : A → A) (l : list A) :
  (∀ x, q x = true → p x = false ∧ p (f x) = false) →
  List.filter p (updateOne q f l) = List.filter p l.
Proof.
  intros Hqp. induction l as [|x l IH]; simpl; [done|].
  destruct (q x) eqn:Eq; simpl.
  - destruct (Hqp x Eq) as [-> ->]. done.
  - by rewrite IH.
Qed.

Lemma filter_updateMany {A} (p q : A → bool) (f : A → A) (l : list A) :
  (∀ x, q x = true → p x = false ∧ p (f x) = false) →
  List.filter p (updateMany q f l) = List.filter p l.
Proof.
  intros Hqp. unfold updateMany. induction l as [|x l IH]; [done|].
  rewrite fmap_cons. cbn [List.filter].
  destruct (q x) eqn:Eq.
  - destruct (Hqp x Eq) as [-> ->]. done.
  - by rewrite IH.
Qed.

Lemma total_foldl_addStatus acc (l : list Counts.CommentStatusCounts) :
  Counts.calculateTotalCommentCount (foldl Counts.addStatus acc l)
  = Counts.calculateTotalCommentCount acc
    + foldr Z.add 0 (Counts.calculateTotalCommentCount <$> l).
Proof.
  revert acc. induction l as [|c l IH]; intros acc.
  - simpl. lia.
  - rewrite fmap_cons. cbn [foldl foldr]. rewrite IH.
    assert (Counts.calculateTotalCommentCount (Counts.addStatus acc c)
            = Counts.calculateTotalCommentCount acc
              + Counts.calculateTotalCommentCount c) as ->.
    { unfold Counts.calculateTotalCommentCount, Counts.addStatus.
      simpl. lia. }
    lia.
Qed.

Section UniqMore.
Context {A : Type} `{EqDecision A}.

(** More than one value left: two different values went in. *)
Lemma length_uniq_two_inv (l : list A) :
  (1 < length (uniq l))%nat → ∃ x y, x ∈ l ∧ y ∈ l ∧ x ≠ y.
Proof.
  intros Hlen. pose proof (NoDup_uniq l) as Hnd.
  destruct (uniq l) as [|a [|b u]] eqn:E; simpl in Hlen; [lia..|].
  exists a, b. rewrite <- !(elem_of_uniq l), E.
  split; [left|]. split; [right; left|].
  apply NoDup_cons in Hnd as [Hnotin _]. intros ->. apply Hnotin. left.
Qed.
End UniqMore.

Section MergeCases.
Variable resolveStoryMode : StorySettings → Tenant.t → GQLSTORY_MODE.

(** The checks of [merge] in the order the code makes them, each with the
    outcome it leads to. *)
Lemma merge_cases tenant destinationID sourceIDs db :
  let run := merge resolveStoryMode tenant destinationID sourceIDs db in
  (sourceIDs = [] ∧ run = (Return None, db))
  ∨ (sourceIDs ≠ [] ∧ ¬ NoDup (destinationID :: sourceIDs)
     ∧ run = (Throw "cannot merge from/to the same story ID", db))
  ∨ (sourceIDs ≠ [] ∧ NoDup (destinationID :: sourceIDs)
     ∧ storyMissing db tenant destinationID sourceIDs
     ∧ run = (Throw "cannot find all the stories", db))
  ∨ (sourceIDs ≠ [] ∧ NoDup (destinationID :: sourceIDs)
     ∧ ¬ storyMissing db tenant destinationID sourceIDs
     ∧ sitesDiffer db tenant destinationID sourceIDs
     ∧ run = (Throw "cannot merge stories on different sites", db))
  ∨ (sourceIDs ≠ [] ∧ NoDup (destinationID :: sourceIDs)
     ∧ ¬ storyMissing db tenant destinationID sourceIDs
     ∧ ¬ sitesDiffer db tenant destinationID sourceIDs
     ∧ notAllCommentsMode resolveStoryMode db tenant destinationID sourceIDs
     ∧ run = (Throw "cannot merge stories not in comments mode", db))
  ∨ (∃ destination sources,
       mergeable resolveStoryMode db tenant destinationID sourceIDs
         destination sources
       ∧ run
         = (Return (Some (Story.withCommentCounts
                            (mergedCommentCounts sources) destination)),
            mergedDb db (Tenant.id tenant) destinationID sourceIDs
              (mergedCommentCounts sources))).
Proof.
  cbv zeta. unfold merge.
  case_bool_decide as Hlen.
  { left. split; [by apply nil_length_inv|done]. }
  assert (sourceIDs ≠ []) as Hne by (by destruct sourceIDs).
  right. cbv zeta. case_bool_decide as Hdup.
  { left. split; [done|]. split; [|done]. by rewrite <- length_uniq_NoDup. }
  assert (NoDup (destinationID :: sourceIDs)) as Hnd.
  { apply length_uniq_NoDup. lia. }
  right. rewrite run_bind. unfold retrieveManyStories.
  fold (referencedStories db tenant destinationID sourceIDs).
  destruct (isNonNullArray _) as [found|] eqn:Hfound.
  2:{ left. repeat (split; [done|]). split; [|done].
      by apply isNonNullArray_None. }
  apply isNonNullArray_Some in Hfound.
  assert (¬ storyMissing db tenant destinationID sourceIDs) as Hall.
  { unfold storyMissing. rewrite Hfound.
    by intros (? & ? & _)%list_elem_of_fmap. }
  right. case_bool_decide as Hsites.
  { left. repeat (split; [done|]). split; [|done].
    apply length_uniq_two_inv in Hsites as (x & y & Hx & Hy & Hxy).
    apply list_elem_of_fmap in Hx as (s1 & -> & H1).
    apply list_elem_of_fmap in Hy as (s2 & -> & H2).
    exists s1, s2. rewrite Hfound.
    split; [by apply list_elem_of_fmap_2|].
    split; [by apply list_elem_of_fmap_2|done]. }
  assert (∀ s1 s2, s1 ∈ found → s2 ∈ found →
                   Story.siteID s1 = Story.siteID s2) as Hsame.
  { intros s1 s2 H1 H2.
    destruct (decide (Story.siteID s1 = Story.siteID s2)) as [|Hd]; [done|].
    exfalso. apply Hsites.
    apply (length_uniq_two _ (Story.siteID s1) (Story.siteID s2));
      [by apply list_elem_of_fmap_2..|done]. }
  assert (¬ sitesDiffer db tenant destinationID sourceIDs) as Hnodiff.
  { intros (s1 & s2 & H1 & H2 & Hd). rewrite Hfound in H1, H2.
    apply list_elem_of_fmap in H1 as (s1' & [= <-] & H1).
    apply list_elem_of_fmap in H2 as (s2' & [= <-] & H2).
    by apply Hd, Hsame. }
  right. destruct (existsb _ found) eqn:Hmode.
  { left. repeat (split; [done|]). split; [|done].
    apply existsb_exists in Hmode as (s & Hs & Hm).
    apply bool_decide_eq_true in Hm. exists s. rewrite Hfound.
    split; [|done]. by apply list_elem_of_fmap_2, list_elem_of_In. }
  right.
  destruct found as [|destination sources]; [discriminate Hfound|].
  injection Hfound as Hdest Hsources.
  exists destination, sources. split.
  - repeat (split; [done|]). split.
    + intros s Hs. apply Hsame; [done|left].
    + intros s Hs.
      destruct (decide (resolveStoryMode (Story.settings s) tenant
                        = COMMENTS)) as [|Hm]; [done|].
      apply not_true_iff_false in Hmode. exfalso. apply Hmode.
      apply existsb_exists. exists s. split; [by apply list_elem_of_In|].
      by apply bool_decide_eq_true.
  - cbv [mbind Async_bind mret Async_ret mergeManyCommentStories
         mergeManyStoryActions updateStoryCounts removeStories record].
    cbn [stories comments actions journal tail].
    unfold findStory in Hdest |- *. cbn [stories]. rewrite Hdest.
    cbn [fmap option_fmap option_map stories comments actions journal].
    unfold mergedDb. rewrite <- !app_assoc. reflexivity.
Qed.

Lemma mergeable_referencedStories
  tenant destinationID sourceIDs db destination sources :
  mergeable resolveStoryMode db tenant destinationID sourceIDs
    destination sources →
  referencedStories db tenant destinationID sourceIDs
  = Some <$> destination :: sources.
Proof.
  intros (_ & _ & Hdest & Hsources & _).
  unfold referencedStories. by rewrite !fmap_cons, Hdest, Hsources.
Qed.

(** A merge that does not hand back a story has left the store alone. *)
Lemma merge_all_or_nothing tenant destinationID sourceIDs db outcome db' :
  merge resolveStoryMode tenant destinationID sourceIDs db = (outcome, db') →
  db' = db
  ∨ ∃ sources,
      findStory db (Tenant.id tenant) <$> sourceIDs = Some <$> sources
      ∧ NoDup (destinationID :: sourceIDs)
      ∧ db' = mergedDb db (Tenant.id tenant) destinationID sourceIDs
                (mergedCommentCounts sources)
      ∧ ∃ d, outcome = Return (Some d).
Proof.
  intros Hrun.
  destruct (merge_cases tenant destinationID sourceIDs db)
    as [[_ H]|[(_ & _ & H)|[(_ & _ & _ & H)|[(_ & _ & _ & _ & H)
       |[(_ & _ & _ & _ & _ & H)|(d' & ss' & Hok & H)]]]]];
    rewrite H in Hrun; injection Hrun as <- <-; [by left..|].
  right. exists ss'. destruct Hok as (_ & ? & _ & ? & _). eauto.
Qed.

(** X1.  When the source list is not empty, no id occurs twice, every
    referenced story exists, all lie on the destination's site and all
    resolve to comments mode, [merge] returns the destination with the merged
    counts of the sources, having reassigned the comments, reassigned the
    actions, updated the counts and deleted the sources, in that order. *)
Theorem merge_succeeds_when_mergeable
  tenant destinationID sourceIDs db destination sources :
  mergeable resolveStoryMode db tenant destinationID sourceIDs
    destination sources →
  merge resolveStoryMode tenant destinationID sourceIDs db
  = (Return (Some (Story.withCommentCounts
                     (mergedCommentCounts sources) destination)),
     mergedDb db (Tenant.id tenant) destinationID sourceIDs
       (mergedCommentCounts sources)).
Proof.
  intros Hok. pose proof (mergeable_referencedStories _ _ _ _ _ _ Hok) as Href.
  destruct Hok as (Hne & Hnd & Hdest & Hsources & Hsite & Hmode).
  destruct (merge_cases tenant destinationID sourceIDs db)
    as [[? _]|[(_ & ? & _)|[(_ & _ & Hmiss & _)|[(_ & _ & _ & Hdiff & _)
       |[(_ & _ & _ & _ & Hnot & _)|(d' & ss' & Hok' & ->)]]]]];
    [done|done|exfalso..|].
  - unfold storyMissing in Hmiss. rewrite Href in Hmiss.
    by apply list_elem_of_fmap in Hmiss as (? & ? & _).
  - destruct Hdiff as (s1 & s2 & H1 & H2 & Hd). rewrite Href in H1, H2.
    apply list_elem_of_fmap in H1 as (? & [= <-] & H1).
    apply list_elem_of_fmap in H2 as (? & [= <-] & H2).
    apply Hd. by rewrite (Hsite s1), (Hsite s2).
  - destruct Hnot as (s & Hs & Hm). rewrite Href in Hs.
    apply list_elem_of_fmap in Hs as (? & [= <-] & Hs). by apply Hm, Hmode.
  - destruct Hok' as (_ & _ & Hdest' & Hsources' & _).
    rewrite Hdest in Hdest'. injection Hdest' as <-.
    rewrite Hsources in Hsources'. apply (inj (fmap Some)) in Hsources'.
    by subst ss'.
Qed.

(** X2.  With the store to itself (no concurrent writer, no failing
    repository call), a [merge] that throws or returns null has left the
    store exactly as it was: no comment or action reassigned, no story
    updated or deleted, no write issued. *)
Theorem merge_without_story_changes_nothing
  tenant destinationID sourceIDs db outcome db' :
  merge resolveStoryMode tenant destinationID sourceIDs db = (outcome, db') →
  (∀ d, outcome ≠ Return (Some d)) →
  db' = db.
Proof.
  intros Hrun Hno.
  destruct (merge_all_or_nothing _ _ _ _ _ _ Hrun)
    as [|(? & _ & _ & _ & d & ->)]; [done|].
  by destruct (Hno d).
Qed.

(** [merge] throws the duplicate-id error exactly when the source list
    holds the destination id or some id twice. *)
Lemma merge_duplicate_error_iff tenant destinationID sourceIDs db :
  (merge resolveStoryMode tenant destinationID sourceIDs db).1
  = Throw "cannot merge from/to the same story ID"
  ↔ ¬ NoDup (destinationID :: sourceIDs).
Proof.
  destruct (merge_cases tenant destinationID sourceIDs db)
    as [[-> H]|[(_ & ? & H)|[(_ & ? & _ & H)|[(_ & ? & _ & _ & H)
       |[(_ & ? & _ & _ & _ & H)|(d' & ss' & (_ & ? & _) & H)]]]]];
    rewrite H; simpl; split; try done.
  intros Hnd. destruct Hnd. apply NoDup_singleton.
Qed.

(** [merge] throws the missing-stories error exactly when the source
    list is not empty, no id occurs twice and some referenced story is not
    in the store: duplicates are reported before missing stories. *)
Lemma merge_missing_error_iff tenant destinationID sourceIDs db :
  (merge resolveStoryMode tenant destinationID sourceIDs db).1
  = Throw "cannot find all the stories"
  ↔ sourceIDs ≠ [] ∧ NoDup (destinationID :: sourceIDs)
    ∧ storyMissing db tenant destinationID sourceIDs.
Proof.
  destruct (merge_cases tenant destinationID sourceIDs db)
    as [[? H]|[(? & ? & H)|[(? & ? & ? & H)|[(? & ? & ? & ? & H)
       |[(? & ? & ? & ? & ? & H)|(d' & ss' & Hok & H)]]]]];
    rewrite H; simpl; split; try done; try (by intros (? & ? & ?)).
  intros (_ & _ & Hmiss). exfalso.
  unfold storyMissing in Hmiss.
  rewrite (mergeable_referencedStories _ _ _ _ _ _ Hok) in Hmiss.
  by apply list_elem_of_fmap in Hmiss as (? & ? & _).
Qed.

(** [merge] throws the different-sites error exactly when the source
    list is not empty, no id occurs twice, every referenced story exists and
    two of them carry different [siteID]s; the modes are not looked at
    before. *)
Lemma merge_sites_error_iff tenant destinationID sourceIDs db :
  (merge resolveStoryMode tenant destinationID sourceIDs db).1
  = Throw "cannot merge stories on different sites"
  ↔ sourceIDs ≠ [] ∧ NoDup (destinationID :: sourceIDs)
    ∧ ¬ storyMissing db tenant destinationID sourceIDs
    ∧ sitesDiffer db tenant destinationID sourceIDs.
Proof.
  destruct (merge_cases tenant destinationID sourceIDs db)
    as [[? H]|[(? & ? & H)|[(? & ? & ? & H)|[(? & ? & ? & ? & H)
       |[(? & ? & ? & ? & ? & H)|(d' & ss' & Hok & H)]]]]];
    rewrite H; simpl; split; try done; try (by intros (? & ? & ? & ?)).
  intros (_ & _ & _ & s1 & s2 & H1 & H2 & Hd). exfalso.
  rewrite (mergeable_referencedStories _ _ _ _ _ _ Hok) in H1, H2.
  destruct Hok as (_ & _ & _ & _ & Hsite & _).
  apply list_elem_of_fmap in H1 as (? & [= <-] & H1).
  apply list_elem_of_fmap in H2 as (? & [= <-] & H2).
  apply Hd. by rewrite (Hsite s1), (Hsite s2).
Qed.

(** [merge] throws the not-in-comments-mode error exactly when every
    earlier check passes (some source, no id twice, all stories found, one
    site) and a referenced story does not resolve to comments mode. *)
Lemma merge_mode_error_iff tenant destinationID sourceIDs db :
  (merge resolveStoryMode tenant destinationID sourceIDs db).1
  = Throw "cannot merge stories not in comments mode"
  ↔ sourceIDs ≠ [] ∧ NoDup (destinationID :: sourceIDs)
    ∧ ¬ storyMissing db tenant destinationID sourceIDs
    ∧ ¬ sitesDiffer db tenant destinationID sourceIDs
    ∧ notAllCommentsMode resolveStoryMode db tenant destinationID sourceIDs.
Proof.
  destruct (merge_cases tenant destinationID sourceIDs db)
    as [[? H]|[(? & ? & H)|[(? & ? & ? & H)|[(? & ? & ? & ? & H)
       |[(? & ? & ? & ? & ? & H)|(d' & ss' & Hok & H)]]]]];
    rewrite H; simpl; split; try done; try (by intros (? & ? & ? & ? & ?)).
  intros (_ & _ & _ & _ & s & Hs & Hm). exfalso.
  rewrite (mergeable_referencedStories _ _ _ _ _ _ Hok) in Hs.
  destruct Hok as (_ & _ & _ & _ & _ & Hmode).
  apply list_elem_of_fmap in Hs as (? & [= <-] & Hs). by apply Hm, Hmode.
Qed.

(** X3.  The error [merge] throws is that of the first check to fail, in
    the order duplicate ids, missing stories, different sites, mode: each of
    the four errors is thrown exactly when the source list is not empty,
    every earlier check passes and its own check fails. *)
Theorem merge_error_precedence tenant destinationID sourceIDs db :
  let outcome :=
    (merge resolveStoryMode tenant destinationID sourceIDs db).1 in
  let distinct := NoDup (destinationID :: sourceIDs) in
  let missing := storyMissing db tenant destinationID sourceIDs in
  let differ := sitesDiffer db tenant destinationID sourceIDs in
  let mode :=
    notAllCommentsMode resolveStoryMode db tenant destinationID sourceIDs in
  (outcome = Throw "cannot merge from/to the same story ID" ↔ ¬ distinct)
  ∧ (outcome = Throw "cannot find all the stories"
     ↔ sourceIDs ≠ [] ∧ distinct ∧ missing)
  ∧ (outcome = Throw "cannot merge stories on different sites"
     ↔ sourceIDs ≠ [] ∧ distinct ∧ ¬ missing ∧ differ)
  ∧ (outcome = Throw "cannot merge stories not in comments mode"
     ↔ sourceIDs ≠ [] ∧ distinct ∧ ¬ missing ∧ ¬ differ ∧ mode).
Proof.
  cbv zeta. split; [|split; [|split]].
  - apply merge_duplicate_error_iff.
  - apply merge_missing_error_iff.
  - apply merge_sites_error_iff.
  - apply merge_mode_error_iff.
Qed.

(** X4.  After a merge that returned a story, none of the source ids names
    a story of the tenant any more. *)
Theorem merge_removes_sources tenant destinationID sourceIDs db d db' :
  merge resolveStoryMode tenant destinationID sourceIDs db
  = (Return (Some d), db') →
  ∀ sourceID, sourceID ∈ sourceIDs →
    findStory db' (Tenant.id tenant) sourceID = None.
Proof.
  intros Hrun sourceID Hin.
  apply merge_returned_story in Hrun
    as (destination & sources & _ & _ & _ & _ & ->).
  unfold findStory, mergedDb. cbn [stories].
  apply find_deleteMany_None. intros x Hx.
  unfold isStory in Hx. apply andb_prop in Hx as [Ht Hi].
  apply bool_decide_eq_true in Hi. unfold inStories.
  by rewrite Ht, Hi, bool_decide_eq_true_2.
Qed.

(** X5.  A merge that returned a story kept every comment document and
    moved the tenant's comments of the source stories to the destination:
    afterwards no comment of the tenant points to a source story, and every
    other comment is as it was. *)
Theorem merge_reassigns_comments tenant destinationID sourceIDs db d db' :
  merge resolveStoryMode tenant destinationID sourceIDs db
  = (Return (Some d), db') →
  length (comments db') = length (comments db)
  ∧ (∀ c, c ∈ comments db →
          Comment.tenantID c = Tenant.id tenant →
          Comment.storyID c ∈ sourceIDs →
          Comment.withStoryID destinationID c ∈ comments db')
  ∧ (∀ c, c ∈ comments db →
          ¬ (Comment.tenantID c = Tenant.id tenant
             ∧ Comment.storyID c ∈ sourceIDs) →
          c ∈ comments db')
  ∧ (∀ c, c ∈ comments db' →
          ¬ (Comment.tenantID c = Tenant.id tenant
             ∧ Comment.storyID c ∈ sourceIDs)).
Proof.
  intros Hrun.
  apply merge_returned_story in Hrun
    as (destination & sources & Hnd & _ & _ & _ & ->).
  apply NoDup_cons in Hnd as [Hnotin _].
  unfold mergedDb. cbn [comments].
  split; [apply length_updateMany|]. split; [|split].
  - intros c Hc Ht Hs. apply elem_of_updateMany. exists c.
    split; [done|]. unfold commentOf.
    by rewrite !bool_decide_eq_true_2.
  - intros c Hc Hnot. apply elem_of_updateMany. exists c.
    split; [done|]. unfold commentOf.
    destruct (bool_decide_reflect (Comment.tenantID c = Tenant.id tenant));
      [|done].
    destruct (bool_decide_reflect (Comment.storyID c ∈ sourceIDs)); [|done].
    by destruct Hnot.
  - intros c (x & Hx & ->)%elem_of_updateMany [Ht Hs].
    unfold commentOf in Ht, Hs.
    destruct (bool_decide_reflect (Comment.tenantID x = Tenant.id tenant));
      simpl in *; [|done].
    destruct (bool_decide_reflect (Comment.storyID x ∈ sourceIDs));
      simpl in *; done.
Qed.

(** X6.  Likewise for the actions: none is lost, the tenant's actions on the
    source stories point to the destination afterwards, and no action of the
    tenant points to a source story. *)
Theorem merge_reassigns_actions tenant destinationID sourceIDs db d db' :
  merge resolveStoryMode tenant destinationID sourceIDs db
  = (Return (Some d), db') →
  length (actions db') = length (actions db)
  ∧ (∀ a, a ∈ actions db →
          Action.tenantID a = Tenant.id tenant →
          Action.storyID a ∈ sourceIDs →
          Action.withStoryID destinationID a ∈ actions db')
  ∧ (∀ a, a ∈ actions db →
          ¬ (Action.tenantID a = Tenant.id tenant
             ∧ Action.storyID a ∈ sourceIDs) →
          a ∈ actions db')
  ∧ (∀ a, a ∈ actions db' →
          ¬ (Action.tenantID a = Tenant.id tenant
             ∧ Action.storyID a ∈ sourceIDs)).
Proof.
  intros Hrun.
  apply merge_returned_story in Hrun
    as (destination & sources & Hnd & _ & _ & _ & ->).
  apply NoDup_cons in Hnd as [Hnotin _].
  unfold mergedDb. cbn [actions].
  split; [apply length_updateMany|]. split; [|split].
  - intros a Ha Ht Hs. apply elem_of_updateMany. exists a.
    split; [done|]. unfold actionOf.
    by rewrite !bool_decide_eq_true_2.
  - intros a Ha Hnot. apply elem_of_updateMany. exists a.
    split; [done|]. unfold actionOf.
    destruct (bool_decide_reflect (Action.tenantID a = Tenant.id tenant));
      [|done].
    destruct (bool_decide_reflect (Action.storyID a ∈ sourceIDs)); [|done].
    by destruct Hnot.
  - intros a (x & Hx & ->)%elem_of_updateMany [Ht Hs].
    unfold actionOf in Ht, Hs.
    destruct (bool_decide_reflect (Action.tenantID x = Tenant.id tenant));
      simpl in *; [|done].
    destruct (bool_decide_reflect (Action.storyID x ∈ sourceIDs));
      simpl in *; done.
Qed.

(** X7.  After a merge that returned a story, the destination's total
    comment count (the figure that gates [remove]) is the sum of the totals
    the source stories had. *)
Theorem merge_total_is_sum_of_sources
  tenant destinationID sourceIDs db d db' :
  merge resolveStoryMode tenant destinationID sourceIDs db
  = (Return (Some d), db') →
  ∃ sources,
    findStory db (Tenant.id tenant) <$> sourceIDs = Some <$> sources
    ∧ Counts.calculateTotalCommentCount
        (Counts.status (Story.commentCounts d))
      = foldr Z.add 0
          ((λ s, Counts.calculateTotalCommentCount
                   (Counts.status (Story.commentCounts s))) <$> sources).
Proof.
  intros Hrun.
  apply merge_returned_story in Hrun
    as (destination & sources & _ & _ & Hsources & -> & _).
  exists sources. split; [done|]. simpl.
  unfold Counts.mergeCommentStatusCount.
  rewrite total_foldl_addStatus, <- list_fmap_compose. reflexivity.
Qed.

(** X8.  Whatever its outcome, [merge] leaves every story other than the
    destination and the sources of its tenant as it was: the stories of other
    tenants, also under the same ids, and the tenant's other stories. *)
Theorem merge_touches_only_referenced_stories
  tenant destinationID sourceIDs db outcome db' :
  merge resolveStoryMode tenant destinationID sourceIDs db = (outcome, db') →
  ∀ tenantID id,
    tenantID ≠ Tenant.id tenant ∨ id ∉ destinationID :: sourceIDs →
    findStory db' tenantID id = findStory db tenantID id.
Proof.
  intros Hrun tenantID id Hother.
  destruct (merge_all_or_nothing _ _ _ _ _ _ Hrun)
    as [->|(sources & _ & _ & -> & _)]; [done|].
  unfold findStory, mergedDb. cbn [stories].
  rewrite find_deleteMany, find_updateOne_other; [done| |].
  - intros x Hx. unfold isStory in *.
    apply andb_prop in Hx as [Ht Hi]. apply bool_decide_eq_true in Ht, Hi.
    simpl. rewrite Ht, Hi.
    assert (bool_decide (Tenant.id tenant = tenantID)
            && bool_decide (destinationID = id) = false) as ->; [|done].
    destruct Hother as [Hne|Hnotin].
    + by rewrite bool_decide_eq_false_2.
    + rewrite (bool_decide_eq_false_2 (destinationID = id)).
      * apply andb_false_r.
      * intros <-. apply Hnotin. left.
  - intros x Hx. unfold isStory in Hx. unfold inStories.
    apply andb_prop in Hx as [Ht Hi]. apply bool_decide_eq_true in Ht, Hi.
    rewrite Ht, Hi.
    destruct Hother as [Hne|Hnotin].
    + by rewrite bool_decide_eq_false_2.
    + rewrite (bool_decide_eq_false_2 (id ∈ sourceIDs)).
      * apply andb_false_r.
      * intros Hin. apply Hnotin. by right.
Qed.

(** X9.  Whatever its outcome, [merge] leaves the stories, comments and
    actions of every other tenant as they were. *)
Theorem merge_leaves_other_tenants
  tenant destinationID sourceIDs db outcome db' :
  merge resolveStoryMode tenant destinationID sourceIDs db = (outcome, db') →
  foreignStories (Tenant.id tenant) db' = foreignStories (Tenant.id tenant) db
  ∧ foreignComments (Tenant.id tenant) db'
    = foreignComments (Tenant.id tenant) db
  ∧ foreignActions (Tenant.id tenant) db'
    = foreignActions (Tenant.id tenant) db.
Proof.
  intros Hrun.
  destruct (merge_all_or_nothing _ _ _ _ _ _ Hrun)
    as [->|(sources & _ & _ & -> & _)]; [done|].
  unfold foreignStories, foreignComments, foreignActions, mergedDb.
  cbn [stories comments actions]. split; [|split].
  - rewrite filter_deleteMany, filter_updateOne; [done| |].
    + intros x Hx. unfold isStory in Hx. apply andb_prop in Hx as [Ht _].
      simpl. by rewrite Ht.
    + intros x Hx. unfold inStories in Hx. apply andb_prop in Hx as [Ht _].
      by rewrite Ht.
  - rewrite filter_updateMany; [done|].
    intros x Hx. unfold commentOf in Hx. apply andb_prop in Hx as [Ht _].
    simpl. by rewrite Ht.
  - rewrite filter_updateMany; [done|].
    intros x Hx. unfold actionOf in Hx. apply andb_prop in Hx as [Ht _].
    simpl. by rewrite Ht.
Qed.

End MergeCases.

(* ===================================================================== *)
(** * Further properties of [remove] *)
(* ===================================================================== *)

Lemma elem_of_deleteMany {A} (p : A → bool) (l : list A) x :
  x ∈ deleteMany p l ↔ x ∈ l ∧ p x = false.
Proof.
  unfold deleteMany. rewrite !list_elem_of_In, filter_In.
  by rewrite negb_true_iff.
Qed.

Lemma find_deleteOne_unique {A} (p : A → bool) (l : list A) :
  (countMatching p l ≤ 1)%nat → List.find p (deleteOne p l) = None.
Proof.
  unfold countMatching. induction l as [|x l IH]; simpl; [done|].
  destruct (p x) eqn:E; simpl; intros Hcount.
  - destruct (List.find p l) as [y|] eqn:Hy; [|done].
    apply find_some in Hy as [Hin Hp].
    assert (In y (List.filter p l)) as Hf by (by apply filter_In).
    destruct (List.filter p l); [done|]. simpl in Hcount. lia.
  - rewrite E. by apply IH.
Qed.

(** The three stores a removal can leave behind. *)
Lemma remove_cases tenant storyID includeComments db :
  let run := remove tenant storyID includeComments db in
  (findStory db (Tenant.id tenant) storyID = None ∧ run = (Return None, db))
  ∨ (∃ story,
       findStory db (Tenant.id tenant) storyID = Some story
       ∧ includeComments = false
       ∧ 0 < Counts.calculateTotalCommentCount
               (Counts.status (Story.commentCounts story))
       ∧ run = (Throw "asset has comments, cannot remove", db))
  ∨ (∃ story,
       findStory db (Tenant.id tenant) storyID = Some story
       ∧ includeComments = false
       ∧ Counts.calculateTotalCommentCount
           (Counts.status (Story.commentCounts story)) ≤ 0
       ∧ run
         = (Return (Some story),
            {| stories :=
                 deleteOne (isStory (Tenant.id tenant) storyID) (stories db);
               comments := comments db;
               actions := actions db;
               journal :=
                 journal db ++ [RemoveStory (Tenant.id tenant) storyID] |}))
  ∨ (∃ story,
       findStory db (Tenant.id tenant) storyID = Some story
       ∧ includeComments = true
       ∧ run
         = (Return (Some story),
            {| stories :=
                 deleteOne (isStory (Tenant.id tenant) storyID) (stories db);
               comments :=
                 deleteMany (commentOf (Tenant.id tenant) [storyID])
                   (comments db);
               actions :=
                 deleteMany (actionOf (Tenant.id tenant) [storyID])
                   (actions db);
               journal :=
                 journal db ++
                 [RemoveStoryActions (Tenant.id tenant) storyID;
                  RemoveStoryComments (Tenant.id tenant) storyID;
                  RemoveStory (Tenant.id tenant) storyID] |})).
Proof.
  cbv zeta. unfold remove. rewrite run_bind. unfold retrieveStory.
  destruct (findStory db (Tenant.id tenant) storyID) as [story|] eqn:Hfind;
    [right|by left].
  destruct (findStory_Some _ _ _ _ Hfind) as [Hid _]. rewrite Hid.
  unfold findStory in Hfind.
  destruct includeComments.
  - right; right. exists story. split; [done|]. split; [done|].
    cbv [mbind Async_bind mret Async_ret removeStoryActions
         removeStoryComments removeStory findStory record].
    cbn [stories comments actions journal]. rewrite Hfind.
    rewrite <- !app_assoc. reflexivity.
  - rewrite run_bind. case_bool_decide as Htotal.
    + left. exists story. done.
    + right; left. exists story. split; [done|]. split; [done|].
      split; [lia|].
      cbv [mbind Async_bind mret Async_ret removeStory findStory record].
      cbn [stories comments actions journal]. by rewrite Hfind.
Qed.

(** X10.  For an existing story whose status counts do not sum to more than
    zero, [remove] with [includeComments = false] deletes the story record
    alone, with a single write, and returns it; comments and actions are not
    touched. *)
Theorem remove_story_without_comments tenant storyID db story :
  findStory db (Tenant.id tenant) storyID = Some story →
  Counts.calculateTotalCommentCount
    (Counts.status (Story.commentCounts story)) ≤ 0 →
  remove tenant storyID false db
  = (Return (Some story),
     {| stories := deleteOne (isStory (Tenant.id tenant) storyID) (stories db);
        comments := comments db;
        actions := actions db;
        journal := journal db ++ [RemoveStory (Tenant.id tenant) storyID] |}).
Proof.
  intros Hfind Htotal.
  destruct (remove_cases tenant storyID false db)
    as [[Hnone _]|[(s & Hs & _ & Hpos & _)|[(s & Hs & _ & _ & ->)
       |(s & _ & ? & _)]]]; [congruence| |congruence|done].
  rewrite Hfind in Hs. injection Hs as <-. lia.
Qed.

(** X11.  [remove] itself throws in one situation only (repository calls
    taken not to fail): the comments were not to be included and the story
    exists with status counts summing to more than zero.  The error is the
    has-comments error and the store is as it was. *)
Theorem remove_throws_only_for_linked_comments
  tenant storyID includeComments db message db' :
  remove tenant storyID includeComments db = (Throw message, db') →
  includeComments = false
  ∧ message = "asset has comments, cannot remove"
  ∧ db' = db
  ∧ ∃ story,
      findStory db (Tenant.id tenant) storyID = Some story
      ∧ 0 < Counts.calculateTotalCommentCount
              (Counts.status (Story.commentCounts story)).
Proof.
  intros Hrun.
  destruct (remove_cases tenant storyID includeComments db)
    as [[_ H]|[(s & Hs & Hincl & Hpos & H)|[(s & _ & _ & _ & H)
       |(s & _ & _ & H)]]];
    rewrite H in Hrun; try discriminate Hrun.
  injection Hrun as <- <-. eauto 6.
Qed.

(** X12.  After [remove] with [includeComments = true] on an existing
    story, no comment and no action of the tenant points to that story, and
    every other comment and action is still there. *)
Theorem remove_cascade_clears_story tenant storyID db story outcome db' :
  findStory db (Tenant.id tenant) storyID = Some story →
  remove tenant storyID true db = (outcome, db') →
  (∀ c, c ∈ comments db' ↔
        c ∈ comments db
        ∧ ¬ (Comment.tenantID c = Tenant.id tenant
             ∧ Comment.storyID c = storyID))
  ∧ (∀ a, a ∈ actions db' ↔
          a ∈ actions db
          ∧ ¬ (Action.tenantID a = Tenant.id tenant
               ∧ Action.storyID a = storyID)).
Proof.
  intros Hfind Hrun.
  destruct (remove_cases tenant storyID true db)
    as [[Hnone _]|[(s & _ & ? & _)|[(s & _ & ? & _)|(s & _ & _ & H)]]];
    [congruence|done|done|].
  rewrite H in Hrun. injection Hrun as _ <-. cbn [comments actions].
  split.
  - intros c. rewrite elem_of_deleteMany. unfold commentOf.
    rewrite andb_false_iff, !bool_decide_eq_false, list_elem_of_singleton.
    split; intros [? ?]; (split; [done|]); [tauto|].
    destruct (decide (Comment.tenantID c = Tenant.id tenant)); tauto.
  - intros a. rewrite elem_of_deleteMany. unfold actionOf.
    rewrite andb_false_iff, !bool_decide_eq_false, list_elem_of_singleton.
    split; intros [? ?]; (split; [done|]); [tauto|].
    destruct (decide (Action.tenantID a = Tenant.id tenant)); tauto.
Qed.

(** X13.  Whatever its outcome, [remove] leaves every other story as it
    was: the stories of other tenants, also one with the same id, and the
    tenant's stories with other ids. *)
Theorem remove_touches_only_that_story
  tenant storyID includeComments db outcome db' :
  remove tenant storyID includeComments db = (outcome, db') →
  ∀ tenantID id,
    tenantID ≠ Tenant.id tenant ∨ id ≠ storyID →
    findStory db' tenantID id = findStory db tenantID id.
Proof.
  intros Hrun tenantID id Hother.
  assert (∀ x, isStory (Tenant.id tenant) storyID x = true →
               isStory tenantID id x = false) as Hdisjoint.
  { intros x Hx. unfold isStory in *.
    apply andb_prop in Hx as [Ht Hi]. apply bool_decide_eq_true in Ht, Hi.
    rewrite Ht, Hi. apply andb_false_iff.
    rewrite !bool_decide_eq_false. destruct Hother; [left|right]; congruence. }
  destruct (remove_cases tenant storyID includeComments db)
    as [[_ H]|[(s & _ & _ & _ & H)|[(s & _ & _ & _ & H)|(s & _ & _ & H)]]];
    rewrite H in Hrun; injection Hrun as _ <-; try done;
    unfold findStory; cbn [stories]; by apply find_deleteOne_other.
Qed.

(** X14.  Without [includeComments], [remove] never touches a comment or an
    action, whatever its outcome. *)
Theorem remove_without_consent_keeps_comments
  tenant storyID db outcome db' :
  remove tenant storyID false db = (outcome, db') →
  comments db' = comments db ∧ actions db' = actions db.
Proof.
  intros Hrun.
  destruct (remove_cases tenant storyID false db)
    as [[_ H]|[(s & _ & _ & _ & H)|[(s & _ & _ & _ & H)|(s & _ & ? & _)]]];
    [..|done]; rewrite H in Hrun; by injection Hrun as _ <-.
Qed.

(** X15.  When the store holds at most one story under the id, a story
    that [remove] returned is gone: removing it again returns null and
    changes nothing. *)
Theorem remove_twice_returns_null
  tenant storyID includeComments again db story db' :
  (countMatching (isStory (Tenant.id tenant) storyID) (stories db) ≤ 1)%nat →
  remove tenant storyID includeComments db = (Return (Some story), db') →
  remove tenant storyID again db' = (Return None, db').
Proof.
  intros Hunique Hrun.
  assert (findStory db' (Tenant.id tenant) storyID = None) as Hgone.
  { destruct (remove_cases tenant storyID includeComments db)
      as [[_ H]|[(s & _ & _ & _ & H)|[(s & _ & _ & _ & H)|(s & _ & _ & H)]]];
      rewrite H in Hrun; try discriminate Hrun;
      injection Hrun as _ <-; unfold findStory; cbn [stories];
      by apply find_deleteOne_unique. }
  unfold remove. rewrite run_bind. unfold retrieveStory.
  by rewrite Hgone.
Qed.

(* ===================================================================== *)
(** * Further properties of [isLiveEnabled] *)
(* ===================================================================== *)

(** The decision of [isLiveEnabled], level by level. *)
Lemma isLiveEnabled_decision config tenant source now :
  isLiveEnabled config tenant source now
  = if disable_live_updates config then false
    else if decide (dormant config source now) then false
    else defaultTo (ownSetting source) (Tenant.liveEnabled tenant).
Proof.
  unfold isLiveEnabled.
  destruct (disable_live_updates config); [done|].
  destruct (decide (dormant config source now)) as [Hd|Hd].
  - destruct source as [s|settings]; [|done].
    destruct Hd as (Hprobe & Hpos & Hout). rewrite Hprobe. cbv zeta.
    by rewrite lastActivity_defaultTo, !bool_decide_eq_true_2.
  - unfold ownSetting. destruct source as [s|settings]; [|done].
    unfold dormant in Hd.
    destruct (sourceIsStory (OfStory s)) eqn:Hprobe; [|done].
    cbv zeta. rewrite lastActivity_defaultTo.
    case_bool_decide as Hpos; [case_bool_decide as Hout|].
    + exfalso. tauto.
    + by destruct (live (Story.settings s)).
    + by destruct (live (Story.settings s)).
Qed.

(** X16.  [isLiveEnabled] is true exactly when the global flag is off, the
    source is not a dormant story, and the source's own [enabled] setting,
    or the tenant's when the source has none, is true.  A timeout of zero or
    less never makes a story dormant, and a bare live configuration is never
    dormant. *)
Theorem isLiveEnabled_true_iff config tenant source now :
  isLiveEnabled config tenant source now = true
  ↔ disable_live_updates config = false
    ∧ ¬ dormant config source now
    ∧ defaultTo (ownSetting source) (Tenant.liveEnabled tenant) = true.
Proof.
  rewrite isLiveEnabled_decision.
  destruct (disable_live_updates config); [by split; [|intros [? _]]|].
  destruct (decide (dormant config source now)) as [Hd|Hd].
  - split; [done|]. by intros (_ & ? & _).
  - split; [done|]. by intros (_ & _ & ?).
Qed.

(** X17.  Live updates never come back with time: when [isLiveEnabled] is
    true at an instant, it is true at every earlier instant, the
    configuration, the tenant and the source being the same. *)
Theorem isLiveEnabled_earlier config tenant source now earlier :
  earlier ≤ now →
  isLiveEnabled config tenant source now = true →
  isLiveEnabled config tenant source earlier = true.
Proof.
  intros Hle. rewrite !isLiveEnabled_decision.
  destruct (disable_live_updates config); [done|].
  destruct (decide (dormant config source now)) as [|Hnow]; [done|].
  intros Hset. rewrite decide_False; [done|].
  intros Hd. apply Hnow. destruct source as [s|]; [|done].
  destruct Hd as (? & ? & ?). repeat split; [done|done|lia].
Qed.

(** X18.  A source that itself says [enabled = false] (a live configuration,
    or the live settings of a story) is never live, whatever the tenant's
    setting, the timeout and the instant. *)
Theorem isLiveEnabled_own_false config tenant source now :
  ownSetting source = Some false →
  isLiveEnabled config tenant source now = false.
Proof.
  intros Hown. rewrite isLiveEnabled_decision, Hown.
  destruct (disable_live_updates config); [done|].
  by destruct (decide _).
Qed.

(** X19.  A story object with an empty [id] or an empty [tenantID] fails the
    probe of [sourceIsStory]: with the global flag off it gets the tenant's
    setting, whatever the timeout, its age and its own live settings. *)
Theorem isLiveEnabled_story_failing_probe config tenant story now :
  Story.id story = "" ∨ Story.tenantID story = "" →
  disable_live_updates config = false →
  isLiveEnabled config tenant (OfStory story) now = Tenant.liveEnabled tenant.
Proof.
  intros Hempty Hflag. unfold isLiveEnabled. rewrite Hflag.
  assert (sourceIsStory (OfStory story) = false) as ->; [|done].
  unfold sourceIsStory. apply andb_false_iff.
  rewrite !bool_decide_eq_false. destruct Hempty; [left|right]; tauto.
Qed.

(* ===================================================================== *)
(** * Further properties of the count mergers *)
(* ===================================================================== *)

(** X20.  Each of the three variadic mergers gives the same result for any
    number of inputs in any order. *)
Theorem merge_counts_order_independent :
  (∀ l k : list Counts.CommentStatusCounts,
     l ≡ₚ k →
     Counts.mergeCommentStatusCount l = Counts.mergeCommentStatusCount k)
  ∧ (∀ l k : list Counts.CommentModerationQueueCounts,
       l ≡ₚ k →
       Counts.mergeCommentModerationQueueCount l
       = Counts.mergeCommentModerationQueueCount k)
  ∧ (∀ l k : list (gmap string Z),
       l ≡ₚ k →
       Counts.mergeCommentActionCounts l = Counts.mergeCommentActionCounts k).
Proof.
  split; [|split]; intros l k Hperm.
  - by apply mergeCommentStatusCount_Permutation.
  - by apply mergeCommentModerationQueueCount_Permutation.
  - by apply mergeCommentActionCounts_Permutation.
Qed.

(** Merging may be done in groups: merging two lists of counts at once
    is merging the merge of the first with the merge of the second. *)
Lemma merge_counts_in_groups :
  (∀ l k : list Counts.CommentStatusCounts,
     Counts.mergeCommentStatusCount (l ++ k)
     = Counts.mergeCommentStatusCount
         [Counts.mergeCommentStatusCount l; Counts.mergeCommentStatusCount k])
  ∧ (∀ l k : list Counts.CommentModerationQueueCounts,
       Counts.mergeCommentModerationQueueCount (l ++ k)
       = Counts.mergeCommentModerationQueueCount
           [Counts.mergeCommentModerationQueueCount l;
            Counts.mergeCommentModerationQueueCount k])
  ∧ (∀ l k : list (gmap string Z),
       Counts.mergeCommentActionCounts (l ++ k)
       = Counts.mergeCommentActionCounts
           [Counts.mergeCommentActionCounts l;
            Counts.mergeCommentActionCounts k]).
Proof.
  split; [|split]; intros l k.
  - unfold Counts.mergeCommentStatusCount.
    rewrite variadic_app, variadic_two;
      auto using addStatus_comm, addStatus_assoc, addStatus_empty_l.
  - unfold Counts.mergeCommentModerationQueueCount.
    rewrite variadic_app, variadic_two;
      auto using addModerationQueue_comm, addModerationQueue_assoc,
        addModerationQueue_empty_l.
  - unfold Counts.mergeCommentActionCounts.
    rewrite variadic_app, variadic_two;
      auto using addAction_comm, addAction_assoc, addAction_empty_l.
Qed.

(** The empty structures of [counts.ts] are neutral for the mergers:
    the merge of no input is the empty structure, the merge of one input is
    that input, and an empty structure among the inputs changes nothing. *)
Lemma merge_counts_empty_neutral :
  (∀ (c : Counts.CommentStatusCounts) l,
     Counts.mergeCommentStatusCount [] = Counts.createEmptyCommentStatusCounts
     ∧ Counts.mergeCommentStatusCount [c] = c
     ∧ Counts.mergeCommentStatusCount
         (Counts.createEmptyCommentStatusCounts :: l)
       = Counts.mergeCommentStatusCount l)
  ∧ (∀ (c : Counts.CommentModerationQueueCounts) l,
       Counts.mergeCommentModerationQueueCount []
       = Counts.createEmptyCommentModerationQueueCounts
       ∧ Counts.mergeCommentModerationQueueCount [c] = c
       ∧ Counts.mergeCommentModerationQueueCount
           (Counts.createEmptyCommentModerationQueueCounts :: l)
         = Counts.mergeCommentModerationQueueCount l)
  ∧ (∀ (c : gmap string Z) l,
       Counts.mergeCommentActionCounts []
       = Counts.action Counts.createEmptyRelatedCommentCounts
       ∧ Counts.mergeCommentActionCounts [c] = c
       ∧ Counts.mergeCommentActionCounts
           (Counts.action Counts.createEmptyRelatedCommentCounts :: l)
         = Counts.mergeCommentActionCounts l).
Proof.
  split; [|split]; intros c l; (split; [reflexivity|]); split.
  - apply addStatus_empty_l.
  - unfold Counts.mergeCommentStatusCount. simpl.
    by rewrite addStatus_empty_l.
  - apply addModerationQueue_empty_l.
  - unfold Counts.mergeCommentModerationQueueCount. simpl.
    by rewrite addModerationQueue_empty_l.
  - apply addAction_empty_l.
  - unfold Counts.mergeCommentActionCounts. simpl.
    by rewrite addAction_empty_l.
Qed.

Lemma foldl_preserves {A} (P : A → Prop) (add : A → A → A) (l : list A) acc :
  (∀ a b, P a → P b → P (add a b)) →
  P acc → Forall P l → P (foldl add acc l).
Proof.
  intros Hadd Hacc Hl. revert acc Hacc.
  induction Hl as [|x l Hx _ IH]; intros acc Hacc; simpl; [done|].
  apply IH. by apply Hadd.
Qed.

(** X21.  The mergers keep counts from going below zero: when no field of any
    input is negative, no field of the merge is. *)
Theorem merge_counts_non_negative :
  (∀ l, Forall statusNonNegative l →
        statusNonNegative (Counts.mergeCommentStatusCount l))
  ∧ (∀ l, Forall moderationQueueNonNegative l →
          moderationQueueNonNegative
            (Counts.mergeCommentModerationQueueCount l))
  ∧ (∀ l, Forall actionNonNegative l →
          actionNonNegative (Counts.mergeCommentActionCounts l)).
Proof.
  split; [|split]; intros l Hl.
  - apply (foldl_preserves statusNonNegative);
      [|unfold statusNonNegative; simpl; lia|done].
    unfold statusNonNegative, Counts.addStatus. simpl. lia.
  - apply (foldl_preserves moderationQueueNonNegative);
      [|unfold moderationQueueNonNegative; simpl; lia|done].
    unfold moderationQueueNonNegative, Counts.addModerationQueue,
      Counts.addPerQueue.
    simpl. lia.
  - apply (foldl_preserves actionNonNegative); [|by intros key n ?|done].
    intros a b Ha Hb key n. rewrite lookup_addAction.
    destruct (a !! key) as [x|] eqn:Ex, (b !! key) as [y|] eqn:Ey;
      intros [= <-]; eauto.
    specialize (Ha key x Ex). specialize (Hb key y Ey). lia.
Qed.

(* ===================================================================== *)
(** * The further properties at work on the two-tenant store *)
(* ===================================================================== *)

Lemma cases_mergeable :
  mergeable Scenario.resolveStoryMode Cases.db Scenario.tenant "D"
    ["S1"; "S2"] Scenario.D [Scenario.S1; Scenario.S2].
Proof.
  unfold mergeable. split; [done|].
  split; [by apply (bool_decide_unpack _)|].
  split; [reflexivity|]. split; [reflexivity|].
  split; intros s Hs;
    repeat (apply elem_of_cons in Hs as [->|Hs]); try reflexivity;
    by apply elem_of_nil in Hs.
Qed.

Lemma cases_merge :
  merge Scenario.resolveStoryMode Scenario.tenant "D" ["S1"; "S2"] Cases.db
  = (Return (Some (Story.withCommentCounts
                     (mergedCommentCounts [Scenario.S1; Scenario.S2])
                     Scenario.D)),
     Cases.merged).
Proof. by vm_compute. Qed.

Lemma cases_merge_missing :
  merge Scenario.resolveStoryMode Scenario.tenant "D" ["nowhere"] Cases.db
  = (Throw "cannot find all the stories", Cases.db).
Proof. by vm_compute. Qed.

Lemma cases_remove_cascade :
  remove Scenario.tenant "S1" true Cases.db
  = (Return (Some Scenario.S1), Cases.removed).
Proof. by vm_compute. Qed.

Lemma merge_succeeds_when_mergeable_witness :
  mergeable Scenario.resolveStoryMode Cases.db Scenario.tenant "D"
    ["S1"; "S2"] Scenario.D [Scenario.S1; Scenario.S2]
  ∧ merge Scenario.resolveStoryMode Scenario.tenant "D" ["S1"; "S2"] Cases.db
    = (Return (Some (Story.withCommentCounts
                       (mergedCommentCounts [Scenario.S1; Scenario.S2])
                       Scenario.D)),
       mergedDb Cases.db (Tenant.id Scenario.tenant) "D" ["S1"; "S2"]
         (mergedCommentCounts [Scenario.S1; Scenario.S2])).
Proof.
  split; [apply cases_mergeable|].
  apply merge_succeeds_when_mergeable, cases_mergeable.
Defined.

Lemma merge_without_story_changes_nothing_witness :
  merge Scenario.resolveStoryMode Scenario.tenant "D" ["nowhere"] Cases.db
  = (Throw "cannot find all the stories", Cases.db)
  ∧ (∀ d : Story.t,
       Throw "cannot find all the stories" ≠ Return (Some d))
  ∧ Cases.db = Cases.db.
Proof.
  split; [apply cases_merge_missing|]. split; [done|].
  apply (merge_without_story_changes_nothing Scenario.resolveStoryMode
           Scenario.tenant "D" ["nowhere"] Cases.db
           (Throw "cannot find all the stories") Cases.db);
    [apply cases_merge_missing|done].
Defined.

Lemma merge_removes_sources_witness :
  "S2" ∈ ["S1"; "S2"]
  ∧ findStory Cases.db "tenant" "S2" = Some Scenario.S2
  ∧ findStory Cases.merged (Tenant.id Scenario.tenant) "S2" = None.
Proof.
  assert ("S2" ∈ ["S1"; "S2"]) as Hin by (right; left).
  split; [done|]. split; [reflexivity|].
  by apply (merge_removes_sources _ _ _ _ _ _ _ cases_merge).
Defined.

Lemma merge_reassigns_comments_witness :
  length (comments Cases.merged) = length (comments Cases.db)
  ∧ (∀ c, c ∈ comments Cases.db →
          Comment.tenantID c = Tenant.id Scenario.tenant →
          Comment.storyID c ∈ ["S1"; "S2"] →
          Comment.withStoryID "D" c ∈ comments Cases.merged)
  ∧ (∀ c, c ∈ comments Cases.db →
          ¬ (Comment.tenantID c = Tenant.id Scenario.tenant
             ∧ Comment.storyID c ∈ ["S1"; "S2"]) →
          c ∈ comments Cases.merged)
  ∧ (∀ c, c ∈ comments Cases.merged →
          ¬ (Comment.tenantID c = Tenant.id Scenario.tenant
             ∧ Comment.storyID c ∈ ["S1"; "S2"])).
Proof. apply (merge_reassigns_comments _ _ _ _ _ _ _ cases_merge). Defined.

Lemma merge_reassigns_actions_witness :
  length (actions Cases.merged) = length (actions Cases.db)
  ∧ (∀ a, a ∈ actions Cases.db →
          Action.tenantID a = Tenant.id Scenario.tenant →
          Action.storyID a ∈ ["S1"; "S2"] →
          Action.withStoryID "D" a ∈ actions Cases.merged)
  ∧ (∀ a, a ∈ actions Cases.db →
          ¬ (Action.tenantID a = Tenant.id Scenario.tenant
             ∧ Action.storyID a ∈ ["S1"; "S2"]) →
          a ∈ actions Cases.merged)
  ∧ (∀ a, a ∈ actions Cases.merged →
          ¬ (Action.tenantID a = Tenant.id Scenario.tenant
             ∧ Action.storyID a ∈ ["S1"; "S2"])).
Proof. apply (merge_reassigns_actions _ _ _ _ _ _ _ cases_merge). Defined.

Lemma merge_total_is_sum_of_sources_witness :
  ∃ sources,
    findStory Cases.db (Tenant.id Scenario.tenant) <$> ["S1"; "S2"]
    = Some <$> sources
    ∧ Counts.calculateTotalCommentCount
        (Counts.status
           (Story.commentCounts
              (Story.withCommentCounts
                 (mergedCommentCounts [Scenario.S1; Scenario.S2])
                 Scenario.D)))
      = foldr Z.add 0
          ((λ s, Counts.calculateTotalCommentCount
                   (Counts.status (Story.commentCounts s))) <$> sources).
Proof. apply (merge_total_is_sum_of_sources _ _ _ _ _ _ _ cases_merge). Defined.

Lemma merge_touches_only_referenced_stories_witness :
  ("other" ≠ Tenant.id Scenario.tenant ∨ "S1" ∉ ["D"; "S1"; "S2"])
  ∧ findStory Cases.db "other" "S1" = Some Cases.foreignStory
  ∧ findStory Cases.merged "other" "S1" = findStory Cases.db "other" "S1".
Proof.
  assert ("other" ≠ Tenant.id Scenario.tenant) as Hne by done.
  split; [by left|]. split; [reflexivity|].
  apply (merge_touches_only_referenced_stories _ _ _ _ _ _ _ cases_merge).
  by left.
Defined.

Lemma merge_leaves_other_tenants_witness :
  foreignStories "tenant" Cases.db = [Cases.foreignStory]
  ∧ foreignStories (Tenant.id Scenario.tenant) Cases.merged
    = foreignStories (Tenant.id Scenario.tenant) Cases.db
  ∧ foreignComments (Tenant.id Scenario.tenant) Cases.merged
    = foreignComments (Tenant.id Scenario.tenant) Cases.db
  ∧ foreignActions (Tenant.id Scenario.tenant) Cases.merged
    = foreignActions (Tenant.id Scenario.tenant) Cases.db.
Proof.
  split; [reflexivity|].
  apply (merge_leaves_other_tenants _ _ _ _ _ _ _ cases_merge).
Defined.

Lemma remove_story_without_comments_witness :
  findStory Cases.db (Tenant.id Scenario.tenant) "E" = Some Cases.E
  ∧ Counts.calculateTotalCommentCount
      (Counts.status (Story.commentCounts Cases.E)) ≤ 0
  ∧ remove Scenario.tenant "E" false Cases.db
    = (Return (Some Cases.E),
       {| stories :=
            deleteOne (isStory (Tenant.id Scenario.tenant) "E")
              (stories Cases.db);
          comments := comments Cases.db;
          actions := actions Cases.db;
          journal :=
            journal Cases.db
            ++ [RemoveStory (Tenant.id Scenario.tenant) "E"] |}).
Proof.
  split; [reflexivity|]. split; [by vm_compute|].
  apply remove_story_without_comments; [reflexivity|by vm_compute].
Defined.

Lemma remove_throws_only_for_linked_comments_witness :
  remove Scenario.tenant "S1" false Cases.db
  = (Throw "asset has comments, cannot remove", Cases.db)
  ∧ false = false
  ∧ "asset has comments, cannot remove" = "asset has comments, cannot remove"
  ∧ Cases.db = Cases.db
  ∧ ∃ story,
      findStory Cases.db (Tenant.id Scenario.tenant) "S1" = Some story
      ∧ 0 < Counts.calculateTotalCommentCount
              (Counts.status (Story.commentCounts story)).
Proof.
  assert (remove Scenario.tenant "S1" false Cases.db
          = (Throw "asset has comments, cannot remove", Cases.db)) as Hrun
    by (by vm_compute).
  split; [done|].
  apply (remove_throws_only_for_linked_comments _ _ _ _ _ _ Hrun).
Defined.

Lemma remove_cascade_clears_story_witness :
  findStory Cases.db (Tenant.id Scenario.tenant) "S1" = Some Scenario.S1
  ∧ (∀ c, c ∈ comments Cases.removed ↔
          c ∈ comments Cases.db
          ∧ ¬ (Comment.tenantID c = Tenant.id Scenario.tenant
               ∧ Comment.storyID c = "S1"))
  ∧ (∀ a, a ∈ actions Cases.removed ↔
          a ∈ actions Cases.db
          ∧ ¬ (Action.tenantID a = Tenant.id Scenario.tenant
               ∧ Action.storyID a = "S1")).
Proof.
  split; [reflexivity|].
  apply (remove_cascade_clears_story Scenario.tenant "S1" Cases.db
           Scenario.S1 _ _ eq_refl cases_remove_cascade).
Defined.

Lemma remove_touches_only_that_story_witness :
  ("other" ≠ Tenant.id Scenario.tenant ∨ "S1" ≠ "S1")
  ∧ findStory Cases.db "other" "S1" = Some Cases.foreignStory
  ∧ findStory Cases.removed "other" "S1" = findStory Cases.db "other" "S1".
Proof.
  assert ("other" ≠ Tenant.id Scenario.tenant) as Hne by done.
  split; [by left|]. split; [reflexivity|].
  apply (remove_touches_only_that_story _ _ _ _ _ _ cases_remove_cascade).
  by left.
Defined.

Lemma remove_without_consent_keeps_comments_witness :
  remove Scenario.tenant "E" false Cases.db
  = (Return (Some Cases.E),
     (remove Scenario.tenant "E" false Cases.db).2)
  ∧ comments (remove Scenario.tenant "E" false Cases.db).2
    = comments Cases.db
  ∧ actions (remove Scenario.tenant "E" false Cases.db).2 = actions Cases.db.
Proof.
  assert (remove Scenario.tenant "E" false Cases.db
          = (Return (Some Cases.E),
             (remove Scenario.tenant "E" false Cases.db).2)) as Hrun
    by (by vm_compute).
  split; [done|].
  apply (remove_without_consent_keeps_comments _ _ _ _ _ Hrun).
Defined.

Lemma remove_twice_returns_null_witness :
  (countMatching (isStory (Tenant.id Scenario.tenant) "S1")
     (stories Cases.db) ≤ 1)%nat
  ∧ remove Scenario.tenant "S1" true Cases.db
    = (Return (Some Scenario.S1), Cases.removed)
  ∧ remove Scenario.tenant "S1" false Cases.removed
    = (Return None, Cases.removed).
Proof.
  assert (countMatching (isStory (Tenant.id Scenario.tenant) "S1")
            (stories Cases.db) ≤ 1)%nat as Hunique by (vm_compute; lia).
  split; [done|]. split; [apply cases_remove_cascade|].
  apply (remove_twice_returns_null _ _ true false _ _ _ Hunique
           cases_remove_cascade).
Defined.

Lemma isLiveEnabled_earlier_witness :
  1200 ≤ 1400
  ∧ isLiveEnabled (Scenario.config false 500) Scenario.tenant
      (OfStory Scenario.D) 1400 = true
  ∧ isLiveEnabled (Scenario.config false 500) Scenario.tenant
      (OfStory Scenario.D) 1200 = true.
Proof.
  assert (1200 ≤ 1400) as Hle by lia.
  split; [done|]. split; [reflexivity|].
  by apply (isLiveEnabled_earlier _ _ _ 1400 1200 Hle).
Defined.

Lemma isLiveEnabled_own_false_witness :
  ownSetting (OfStory Cases.muted) = Some false
  ∧ Tenant.liveEnabled Scenario.tenant = true
  ∧ isLiveEnabled (Scenario.config false 500) Scenario.tenant
      (OfStory Cases.muted) 2100 = false.
Proof.
  split; [reflexivity|]. split; [reflexivity|].
  by apply isLiveEnabled_own_false.
Defined.

Lemma isLiveEnabled_story_failing_probe_witness :
  (Story.id Cases.anonymous = "" ∨ Story.tenantID Cases.anonymous = "")
  ∧ disable_live_updates (Scenario.config false 500) = false
  ∧ lastActivity Cases.anonymous + 500 ≤ 9000
  ∧ isLiveEnabled (Scenario.config false 500) Scenario.tenant
      (OfStory Cases.anonymous) 9000
    = Tenant.liveEnabled Scenario.tenant.
Proof.
  split; [by left|]. split; [reflexivity|]. split; [by vm_compute|].
  apply isLiveEnabled_story_failing_probe; [by left|reflexivity].
Defined.

(* ===================================================================== *)
(** * Properties of the tenant middleware *)
(* ===================================================================== *)

Section MiddlewareFacts.
Import Middleware.
Variables (tenantCache : TenantCache) (passNoTenant : bool).

(** X22.  A request that already carries [req.talk] keeps its trace id and
    its instant, gets no trace header, and keeps a cache it already holds:
    the middleware stamps a request once. *)
Theorem tenantMiddleware_keeps_stamp uuid date x t :
  talk x = Some t →
  ∃ t',
    talk (tenantMiddleware tenantCache passNoTenant uuid date x).1 = Some t'
    ∧ id t' = id t ∧ now t' = now t
    ∧ headers (tenantMiddleware tenantCache passNoTenant uuid date x).1
      = headers x
    ∧ (∀ c, cache t = Some c → cache t' = Some c).
Proof.
  intros Ht. unfold tenantMiddleware. rewrite Ht. cbn [fst snd].
  destruct (retrieveByDomain tenantCache (hostname x)) as [[found|]|err];
    cbn [fst talk headers]; eexists; (split; [reflexivity|]);
    destruct (cache t) eqn:Hc; cbn [id now cache]; repeat split;
    congruence.
Qed.

(** X23.  A request without [req.talk] is stamped with the fresh id and the
    current instant, the [X-Trace-ID] response header carries that id, and
    the middleware's cache is attached. *)
Theorem tenantMiddleware_stamps_fresh_request uuid date x :
  talk x = None →
  ∃ t',
    talk (tenantMiddleware tenantCache passNoTenant uuid date x).1 = Some t'
    ∧ id t' = uuid ∧ now t' = date
    ∧ headers (tenantMiddleware tenantCache passNoTenant uuid date x).1
      !! "X-Trace-ID" = Some (id t')
    ∧ cache t' = Some tenantCache.
Proof.
  intros Ht. unfold tenantMiddleware. rewrite Ht. cbn [fst snd cache].
  destruct (retrieveByDomain tenantCache (hostname x)) as [[found|]|err];
    cbn [fst talk headers]; eexists; (split; [reflexivity|]);
    cbn [id now cache]; repeat split; by rewrite lookup_insert_eq.
Qed.

(** X24.  When the cache knows no tenant for the host, [next] gets a
    [TenantNotFoundError] naming the host, or no error when [passNoTenant]
    is set; either way [res.locals.tenant] and the tenant on [req.talk] stay
    as they were. *)
Theorem tenantMiddleware_no_tenant uuid date x :
  retrieveByDomain tenantCache (hostname x) = Return None →
  let run := tenantMiddleware tenantCache passNoTenant uuid date x in
  run.2 = (if passNoTenant then NoError
           else TenantNotFoundError (hostname x))
  ∧ locals run.1 = locals x
  ∧ (talk run.1 ≫= tenant) = (talk x ≫= tenant).
Proof.
  intros Hnone. cbv zeta. unfold tenantMiddleware. rewrite Hnone.
  cbn [fst snd locals talk]. split; [done|]. split; [done|].
  destruct (talk x) as [t|]; cbn [fst mbind option_bind cache tenant];
    [|done].
  by destruct (cache t).
Qed.

(** X25.  Unless [passNoTenant] is set, [next] is called without an error
    only when the cache resolved the host to a tenant, and that tenant is
    then on [req.talk.tenant] and on [res.locals.tenant]. *)
Theorem tenantMiddleware_no_error_has_tenant uuid date x :
  passNoTenant = false →
  (tenantMiddleware tenantCache passNoTenant uuid date x).2 = NoError →
  ∃ found,
    retrieveByDomain tenantCache (hostname x) = Return (Some found)
    ∧ locals (tenantMiddleware tenantCache passNoTenant uuid date x).1
      = Some found
    ∧ (talk (tenantMiddleware tenantCache passNoTenant uuid date x).1
       ≫= tenant) = Some found.
Proof.
  intros ->. unfold tenantMiddleware.
  destruct (retrieveByDomain tenantCache (hostname x)) as [[found|]|err];
    cbn [fst snd]; [|done..].
  intros _. by exists found.
Qed.

(** X26.  Running the middleware again on what it left behind, with the same
    cache, changes nothing and calls [next] the same way, whatever [uuid()]
    and [new Date()] give the second time. *)
Theorem tenantMiddleware_idempotent uuid date uuid' date' x :
  let run := tenantMiddleware tenantCache passNoTenant uuid date x in
  tenantMiddleware tenantCache passNoTenant uuid' date' run.1 = run.
Proof.
  cbv zeta. destruct x as [host [[i n [c|] tn]|] hd lc];
    unfold tenantMiddleware;
    cbn [hostname talk headers locals fst snd cache id now tenant];
    destruct (retrieveByDomain tenantCache host) as [[found|]|err] eqn:E;
    cbn [hostname talk headers locals fst snd cache id now tenant];
    rewrite E; reflexivity.
Qed.

End MiddlewareFacts.

Lemma tenantMiddleware_keeps_stamp_witness :
  let stamped :=
    (Middleware.tenantMiddleware Middleware.exampleCache false "id-1" 100
       (Middleware.request "news.example")).1 in
  ∃ t, Middleware.talk stamped = Some t ∧
  ∃ t',
    Middleware.talk
      (Middleware.tenantMiddleware Middleware.exampleCache false "id-2" 200
         stamped).1 = Some t'
    ∧ Middleware.id t' = Middleware.id t
    ∧ Middleware.now t' = Middleware.now t
    ∧ Middleware.headers
        (Middleware.tenantMiddleware Middleware.exampleCache false "id-2" 200
           stamped).1
      = Middleware.headers stamped
    ∧ (∀ c, Middleware.cache t = Some c → Middleware.cache t' = Some c).
Proof.
  cbv zeta. eexists. split; [reflexivity|].
  apply tenantMiddleware_keeps_stamp. reflexivity.
Defined.

Lemma tenantMiddleware_stamps_fresh_request_witness :
  Middleware.talk (Middleware.request "news.example") = None
  ∧ ∃ t',
      Middleware.talk
        (Middleware.tenantMiddleware Middleware.exampleCache false "id-1" 100
           (Middleware.request "news.example")).1 = Some t'
      ∧ Middleware.id t' = "id-1" ∧ Middleware.now t' = 100
      ∧ Middleware.headers
          (Middleware.tenantMiddleware Middleware.exampleCache false "id-1"
             100 (Middleware.request "news.example")).1
        !! "X-Trace-ID" = Some (Middleware.id t')
      ∧ Middleware.cache t' = Some Middleware.exampleCache.
Proof.
  split; [reflexivity|].
  by apply tenantMiddleware_stamps_fresh_request.
Defined.

Lemma tenantMiddleware_no_tenant_witness :
  Middleware.retrieveByDomain Middleware.exampleCache
    (Middleware.hostname (Middleware.request "unknown.example"))
  = Return None
  ∧ (Middleware.tenantMiddleware Middleware.exampleCache false "id-1" 100
       (Middleware.request "unknown.example")).2
    = Middleware.TenantNotFoundError "unknown.example"
  ∧ (Middleware.tenantMiddleware Middleware.exampleCache true "id-1" 100
       (Middleware.request "unknown.example")).2
    = Middleware.NoError.
Proof.
  split; [reflexivity|]. split.
  - apply (tenantMiddleware_no_tenant Middleware.exampleCache false "id-1" 100
             (Middleware.request "unknown.example")). reflexivity.
  - apply (tenantMiddleware_no_tenant Middleware.exampleCache true "id-1" 100
             (Middleware.request "unknown.example")). reflexivity.
Defined.

Lemma tenantMiddleware_no_error_has_tenant_witness :
  (Middleware.tenantMiddleware Middleware.exampleCache false "id-1" 100
     (Middleware.request "news.example")).2 = Middleware.NoError
  ∧ ∃ found,
      Middleware.retrieveByDomain Middleware.exampleCache
        (Middleware.hostname (Middleware.request "news.example"))
      = Return (Some found)
      ∧ Middleware.locals
          (Middleware.tenantMiddleware Middleware.exampleCache false "id-1"
             100 (Middleware.request "news.example")).1
        = Some found
      ∧ (Middleware.talk
           (Middleware.tenantMiddleware Middleware.exampleCache false "id-1"
              100 (Middleware.request "news.example")).1
         ≫= Middleware.tenant) = Some found.
Proof.
  split; [reflexivity|].
  apply tenantMiddleware_no_error_has_tenant; reflexivity.
Defined.

(** A rejection of the cache reaches [next], the request stamped all the
    same. *)
Example tenantMiddleware_cache_down :
  let run :=
    Middleware.tenantMiddleware Middleware.exampleCache false "id-1" 100
      (Middleware.request "down.example") in
  run.2 = Middleware.Caught "cache unavailable"
  ∧ (Middleware.id <$> Middleware.talk run.1) = Some "id-1".
Proof. by vm_compute. Qed.

(* ===================================================================== *)
(** * Properties of the edit-comment mutation *)
(* ===================================================================== *)

Section EditCommentFacts.
Import EditComment.

Lemma increment_exact (n : N) : (n < 2 ^ 53)%N → increment n = (n + 1)%N.
Proof. intros Hn. unfold increment. by rewrite bool_decide_eq_true_2. Qed.

(** The ids of a run of commits, read off the counter. *)
Lemma commitAll_ids (n : N) (inputs : list EditCommentInput) :
  (n + N.of_nat (length inputs) ≤ 2 ^ 53)%N →
  (commitAll n inputs).2 = (n + N.of_nat (length inputs))%N
  ∧ (λ c, variables_clientMutationId (variables c)) <$> (commitAll n inputs).1
    = (λ i, toString (n + N.of_nat i)) <$> seq 0 (length inputs).
Proof.
  revert n. induction inputs as [|input inputs IH]; intros n Hbound.
  - simpl. split; [lia|done].
  - cbn [length] in Hbound. cbn [commitAll commit].
    rewrite increment_exact by lia.
    destruct (IH (n + 1)%N) as [Hfinal Hids]; [lia|].
    destruct (commitAll (n + 1) inputs) as [configs final].
    cbn [fst snd] in *. split; [cbn [length]; lia|].
    cbn [length seq]. rewrite !fmap_cons. cbn [variables
      variables_clientMutationId].
    f_equal; [f_equal; lia|].
    rewrite Hids, <- fmap_S_seq, <- list_fmap_compose.
    apply list_fmap_ext. intros _ i _. simpl. f_equal. lia.
Qed.

(** X27.  While the counter stays within the exact integers of a JavaScript
    number, a run of commits advances it by one per commit and no two of
    the commits carry the same [clientMutationId]; in each commit the
    optimistic response carries the id of the variables. *)
Theorem commitAll_ids_distinct (n : N) (inputs : list EditCommentInput) :
  (n + N.of_nat (length inputs) ≤ 2 ^ 53)%N →
  (commitAll n inputs).2 = (n + N.of_nat (length inputs))%N
  ∧ NoDup ((λ c, variables_clientMutationId (variables c))
             <$> (commitAll n inputs).1)
  ∧ Forall (λ c, response_clientMutationId (optimisticResponse c)
                 = variables_clientMutationId (variables c))
      (commitAll n inputs).1.
Proof.
  intros Hbound. destruct (commitAll_ids n inputs Hbound) as [Hfinal Hids].
  split; [done|]. split.
  - rewrite Hids. apply NoDup_fmap_2; [|apply NoDup_seq].
    intros i j Hij. unfold toString in Hij.
    apply (inj pretty) in Hij. lia.
  - clear. revert n. induction inputs as [|input inputs IH]; intros n.
    + constructor.
    + cbn [commitAll commit]. specialize (IH (increment n)).
      destruct (commitAll (increment n) inputs) as [configs final].
      cbn [fst] in *. by constructor.
Qed.

(** X28.  The updater of a commit fails exactly when the store has no
    record for the comment; otherwise it sets that record's
    [lastViewerAction] to [EDIT], leaves its other fields and every other
    record as they were, and applying it again changes nothing. *)
Theorem commit_updater_marks_comment (n : N) (input : EditCommentInput)
  (store : Store) :
  (updater (commit n input).1 store = None
   ↔ store !! commentID input = None)
  ∧ ∀ store',
      updater (commit n input).1 store = Some store' →
      (store' !! commentID input ≫= (.!! "lastViewerAction")) = Some "EDIT"
      ∧ (∀ field, field ≠ "lastViewerAction" →
           (store' !! commentID input ≫= (.!! field))
           = (store !! commentID input ≫= (.!! field)))
      ∧ (∀ other, other ≠ commentID input →
           store' !! other = store !! other)
      ∧ updater (commit n input).1 store' = Some store'.
Proof.
  cbn [commit fst updater]. unfold markEdited.
  destruct (store !! commentID input) as [record|] eqn:Hrecord.
  - split; [done|]. intros store' [= <-].
    rewrite lookup_insert_eq. cbn [mbind option_bind].
    split; [by rewrite lookup_insert_eq|].
    split; [by intros field Hfield; rewrite lookup_insert_ne|].
    split; [by intros other Hother; rewrite lookup_insert_ne|].
    by rewrite !insert_insert_eq.
  - split; [done|]. by intros store' [=].
Qed.

End EditCommentFacts.

Lemma commitAll_ids_distinct_witness :
  let inputs :=
    [{| EditComment.commentID := "c1"; EditComment.body := "first" |};
     {| EditComment.commentID := "c1"; EditComment.body := "second" |};
     {| EditComment.commentID := "c2"; EditComment.body := "third" |}] in
  (9 + N.of_nat (length inputs) ≤ 2 ^ 53)%N
  ∧ (λ c, EditComment.variables_clientMutationId (EditComment.variables c))
      <$> (EditComment.commitAll 9 inputs).1
    = ["9"; "10"; "11"]
  ∧ (EditComment.commitAll 9 inputs).2 = (9 + N.of_nat (length inputs))%N
  ∧ NoDup ((λ c, EditComment.variables_clientMutationId
                   (EditComment.variables c))
             <$> (EditComment.commitAll 9 inputs).1)
  ∧ Forall (λ c, EditComment.response_clientMutationId
                   (EditComment.optimisticResponse c)
                 = EditComment.variables_clientMutationId
                     (EditComment.variables c))
      (EditComment.commitAll 9 inputs).1.
Proof.
  cbv zeta. split; [by vm_compute|]. split; [by vm_compute|].
  apply commitAll_ids_distinct. by vm_compute.
Defined.

(** At [2^53] the counter no longer advances, and two commits in a row
    carry the same id. *)
Example commit_counter_stuck :
  (EditComment.commit (2 ^ 53) {| EditComment.commentID := "c1";
                                 EditComment.body := "b" |}).2
  = (2 ^ 53)%N.
Proof. by vm_compute. Qed.
